(** * qpod-hub: the authenticated local proxy ([qpod/proxy/handlers.py])

  A shallow embedding of [LocalProxyHandler] (HTTP forwarding and the
  WebSocket bridge's connection set-up) and of [SuperviseAndProxyHandler]
  (lazy start of the supervised backend process), with the properties the
  design document states about them.

  Conventions.
  - A Python [str] is a [string]; [bytes] are a [string] as well (a Rocq
    string is a sequence of 8-bit characters), the empty [bytes] being
    [EmptyString].
  - An exception that leaves a function is the [Raises] result of it.
  - The Tornado objects the handlers work on ([HTTPHeaders], the request,
    the client's [HTTPRequest] and [HTTPResponse], the handler's status,
    header set and write buffer) are records holding the attributes the
    handlers read and write.
  - What the outside world does (the backend's answer to [fetch], whether
    the supervised process starts, becomes ready, dies) is an argument of
    the function that meets it. *)

From Stdlib Require Import ZArith NArith String Ascii DecimalString List Lia.
From stdpp Require Import base strings gmap list.

Local Open Scope string_scope.
Local Open Scope list_scope.
Local Open Scope Z_scope.

(** ** Text

  Upper and lower case are those of the ASCII letters, which is what header
  names and the tokens of an [Upgrade] header are made of. *)

Module Text.

Definition is_upper (c : ascii) : bool :=
  ((65 <=? N_of_ascii c) && (N_of_ascii c <=? 90))%N.

Definition is_lower (c : ascii) : bool :=
  ((97 <=? N_of_ascii c) && (N_of_ascii c <=? 122))%N.

Definition lower_char (c : ascii) : ascii :=
  if is_upper c then ascii_of_N (N_of_ascii c + 32) else c.

Definition upper_char (c : ascii) : ascii :=
  if is_lower c then ascii_of_N (N_of_ascii c - 32) else c.

(** [s.lower()] *)
Fixpoint lower (s : string) : string :=
  match s with
  | EmptyString => EmptyString
  | String c t => String (lower_char c) (lower t)
  end.

(** [s.startswith(p)] *)
Definition startswith (s p : string) : bool := String.prefix p s.

(** [str(n)] and ['{}'.format(n)] for a non-negative [int]. *)
Definition str_of_N (n : N) : string := NilEmpty.string_of_uint (N.to_uint n).

(** Truth value of a [str] or [bytes] object: non-empty. *)
Definition truthy (s : string) : bool :=
  match s with EmptyString => false | String _ _ => true end.

End Text.

(** ** [tornado.httputil.HTTPHeaders]

  The handlers read and write header sets only through this class.  It is a
  dictionary from header names in [Http-Header-Case] to the list of values
  received for that name, in order of first insertion; every operation
  normalises the name it is given, so look-ups ignore case. *)

Module HTTPHeaders.

Definition t : Type := list (string * list string).

(** ["-".join(w.capitalize() for w in name.split("-"))]: the first
    character and every character after a dash in upper case, the others
    in lower case. *)
Fixpoint normalize_from (start : bool) (s : string) : string :=
  match s with
  | EmptyString => EmptyString
  | String c rest =>
      String (if start then Text.upper_char c else Text.lower_char c)
             (normalize_from (Ascii.eqb c "-") rest)
  end.

Definition normalize (name : string) : string := normalize_from true name.

Definition empty : t := [].

Fixpoint values (norm : string) (h : t) : option (list string) :=
  match h with
  | [] => None
  | (k, vs) :: rest => if String.eqb k norm then Some vs else values norm rest
  end.

(** [h[name]]: the values joined by commas; [None] stands for [KeyError]. *)
Definition getitem (name : string) (h : t) : option string :=
  match values (normalize name) h with
  | Some vs => Some (String.concat "," vs)
  | None => None
  end.

(** [name in h] *)
Definition contains (name : string) (h : t) : bool :=
  match getitem name h with Some _ => true | None => false end.

(** [h.get(name, default)] *)
Definition get (name default : string) (h : t) : string :=
  match getitem name h with Some v => v | None => default end.

Fixpoint set_norm (norm value : string) (h : t) : t :=
  match h with
  | [] => [(norm, [value])]
  | (k, vs) :: rest =>
      if String.eqb k norm then (k, [value]) :: rest
      else (k, vs) :: set_norm norm value rest
  end.

(** [h[name] = value] *)
Definition setitem (name value : string) (h : t) : t :=
  set_norm (normalize name) value h.

Fixpoint add_norm (norm value : string) (h : t) : t :=
  match h with
  | [] => [(norm, [value])]
  | (k, vs) :: rest =>
      if String.eqb k norm then (k, vs ++ [value]) :: rest
      else (k, vs) :: add_norm norm value rest
  end.

(** [h.add(name, value)] *)
Definition add (name value : string) (h : t) : t :=
  add_norm (normalize name) value h.

Fixpoint del_norm (norm : string) (h : t) : t :=
  match h with
  | [] => []
  | (k, vs) :: rest =>
      if String.eqb k norm then rest else (k, vs) :: del_norm norm rest
  end.

(** [del h[name]]; the handlers delete a name only after testing
    [name in h], so the [KeyError] of an absent name is not modelled. *)
Definition delitem (name : string) (h : t) : t := del_norm (normalize name) h.

(** [h.get_all()]: every (name, value) pair, names in order of first
    insertion, the values of one name together. *)
Fixpoint get_all (h : t) : list (string * string) :=
  match h with
  | [] => []
  | (k, vs) :: rest => map (pair k) vs ++ get_all rest
  end.

(** [HTTPHeaders()] filled by [add], pair after pair: how a header block
    received from a connection becomes an [HTTPHeaders] object. *)
Definition add_all (pairs : list (string * string)) (h : t) : t :=
  fold_left (fun acc kv => add (fst kv) (snd kv) acc) pairs h.

Definition of_pairs (pairs : list (string * string)) : t := add_all pairs empty.

(** [h.copy()] *)
Definition copy (h : t) : t := of_pairs (get_all h).

(** [norm] is one of the names of [h]. *)
Definition has_key (norm : string) (h : t) : bool :=
  existsb (fun kv => String.eqb (fst kv) norm) h.

(** What holds of every [HTTPHeaders] object, since names enter it only
    through [add] and [h[name] = value]: its names are normalised, none
    occurs twice, and each has at least one value. *)
Fixpoint wf (h : t) : bool :=
  match h with
  | [] => true
  | (k, vs) :: rest =>
      String.eqb (normalize k) k
      && match vs with [] => false | _ :: _ => true end
      && negb (has_key k rest)
      && wf rest
  end.

End HTTPHeaders.


(** ** Exceptions and results *)

Inductive exn : Type :=
| ValueError (msg : string)
| KeyError (key : string)
| HTTPError (status_code : Z) (log_message : string)  (* [tornado.web.HTTPError] *)
| OtherError (description : string).                  (* any other exception *)

Inductive result (A : Type) : Type :=
| Returns (a : A)
| Raises (e : exn).

Arguments Returns {A} a.
Arguments Raises {A} e.

(** The status of the response Tornado sends when exception [e] leaves a
    handler method ([RequestHandler._handle_request_exception]): the status
    of a [web.HTTPError], 500 for anything else. *)
Definition error_status (e : exn) : Z :=
  match e with
  | HTTPError status_code _ => status_code
  | _ => 500
  end.

(** ** The objects the handlers work on *)

(** [self.request], the request being served. *)
Record HTTPServerRequest : Type := mkServerRequest {
  method : string;
  query : string;
  headers : HTTPHeaders.t;
  body : string
}.

(** [tornado.httpclient.HTTPRequest], the request sent to the backend.
    [req_body = None] is Python's [body=None]. *)
Record HTTPRequest : Type := mkHTTPRequest {
  url : string;
  req_method : string;
  req_body : option string;
  req_headers : HTTPHeaders.t;
  follow_redirects : bool
}.

(** [HTTPRequest(url=..., headers=...)]: the other arguments at Tornado's
    defaults. *)
Definition HTTPRequest_defaults (u : string) (h : HTTPHeaders.t) : HTTPRequest :=
  mkHTTPRequest u "GET" None h true.

(** [response.error]: an exception object, of which the handler looks at the
    exact type and the text [str(error)]. *)
Record client_error : Type := mkClientError {
  is_HTTPError : bool;  (* [type(error) is httpclient.HTTPError] *)
  error_str : string    (* [str(error)] *)
}.

(** [tornado.httpclient.HTTPResponse], what [fetch(req, raise_error=False)]
    returns. *)
Record HTTPResponse : Type := mkHTTPResponse {
  code : Z;
  reason : string;
  resp_headers : HTTPHeaders.t;
  resp_body : option string;
  error : option client_error
}.

(** The reason phrase of the handler's response: the one given to
    [set_status], or the standard phrase of the status code when none is. *)
Inductive reason_phrase : Type :=
| StandardReason (status_code : Z)
| GivenReason (phrase : string).

(** [simpervisor.SupervisedProcess(name, *cmd, env=..., ready_func=...,
    ready_timeout=..., log=...)]: the arguments it was made with. *)
Record SupervisedProcess : Type := mkSupervisedProcess {
  sp_name : string;
  sp_cmd : list string;
  sp_env : gmap string string;
  sp_ready_timeout : Z
}.

(** The per-target [state] dictionary.  The handlers use three keys of it,
    ['proc_lock'], ['port'] and ['proc'], each with values of one type: a
    field is [None] when its key is not in the dictionary.  The lock itself
    carries no data here; taking and releasing it are events. *)
Record TargetState : Type := mkState {
  proc_lock : option unit;
  port : option N;
  proc : option SupervisedProcess
}.

(** The [port] argument of the forwarding methods: the digits the route
    matched for [LocalProxyHandler], the number bound by the [port] property
    for [SuperviseAndProxyHandler]. *)
Inductive port_arg : Type :=
| PortText (digits : string)
| PortNumber (n : N).

(** [str(port)], ['{port}'.format(port=port)] *)
Definition str_port (p : port_arg) : string :=
  match p with
  | PortText digits => digits
  | PortNumber n => Text.str_of_N n
  end.

(** What a handler does that others can observe, in the order it does it. *)
Inductive event : Type :=
| Activity                        (* [settings['api_last_activity'] = utcnow()] *)
| LogInfo (msg : string)
| SetStatus (status_code : Z)     (* [self.set_status(status_code, ...)] *)
| Fetch (req : HTTPRequest)       (* [await client.fetch(req, raise_error=False)] *)
| AddCallback (uri : string)      (* [IOLoop.current().add_callback(start_websocket_connection)] *)
| WsConnect (req : HTTPRequest)   (* [await pingable_ws_connect(request=..., ...)] *)
| LockAcquired                    (* entering [with (await state['proc_lock'])] *)
| LockReleased                    (* leaving it *)
| ProcStart (p : SupervisedProcess)  (* [await proc.start()] *)
| ProcReady (p : SupervisedProcess)  (* [await proc.ready()] *)
| ProcKill (p : SupervisedProcess).  (* [await proc.kill()] *)

(** A handler object: its configuration, the request, the response under
    construction, the backend WebSocket once connected, the shared [state]
    dictionary of its target, and the events so far. *)
Record Handler : Type := mkHandler {
  base_url : string;
  proxy_base : string;
  rewrite : string;
  name : string;
  request : HTTPServerRequest;
  _status_code : Z;
  _reason : reason_phrase;
  _headers : HTTPHeaders.t;
  _write_buffer : list string;
  ws : option HTTPRequest;
  state : TargetState;
  events : list event
}.

Definition with_request (r : HTTPServerRequest) (self : Handler) : Handler :=
  mkHandler (base_url self) (proxy_base self) (rewrite self) (name self) r
    (_status_code self) (_reason self) (_headers self) (_write_buffer self)
    (ws self) (state self) (events self).

Definition with_status (c : Z) (r : reason_phrase) (self : Handler) : Handler :=
  mkHandler (base_url self) (proxy_base self) (rewrite self) (name self)
    (request self) c r (_headers self) (_write_buffer self)
    (ws self) (state self) (events self).

Definition with_headers (h : HTTPHeaders.t) (self : Handler) : Handler :=
  mkHandler (base_url self) (proxy_base self) (rewrite self) (name self)
    (request self) (_status_code self) (_reason self) h (_write_buffer self)
    (ws self) (state self) (events self).

Definition with_write_buffer (b : list string) (self : Handler) : Handler :=
  mkHandler (base_url self) (proxy_base self) (rewrite self) (name self)
    (request self) (_status_code self) (_reason self) (_headers self) b
    (ws self) (state self) (events self).

Definition with_ws (w : option HTTPRequest) (self : Handler) : Handler :=
  mkHandler (base_url self) (proxy_base self) (rewrite self) (name self)
    (request self) (_status_code self) (_reason self) (_headers self)
    (_write_buffer self) w (state self) (events self).

Definition with_state (s : TargetState) (self : Handler) : Handler :=
  mkHandler (base_url self) (proxy_base self) (rewrite self) (name self)
    (request self) (_status_code self) (_reason self) (_headers self)
    (_write_buffer self) (ws self) s (events self).

Definition emit (e : event) (self : Handler) : Handler :=
  mkHandler (base_url self) (proxy_base self) (rewrite self) (name self)
    (request self) (_status_code self) (_reason self) (_headers self)
    (_write_buffer self) (ws self) (state self) (events self ++ [e]).

(** *** The methods of [tornado.web.RequestHandler] the proxy calls *)

(** [self.set_status(status_code, reason=None)] *)
Definition set_status (status_code : Z) (r : option string) (self : Handler) : Handler :=
  emit (SetStatus status_code)
    (with_status status_code
       (match r with Some phrase => GivenReason phrase | None => StandardReason status_code end)
       self).

(** [self.write(chunk)] *)
Definition write (chunk : string) (self : Handler) : Handler :=
  with_write_buffer (_write_buffer self ++ [chunk]) self.

(** [self.add_header(name, value)] *)
Definition add_header (header value : string) (self : Handler) : Handler :=
  with_headers (HTTPHeaders.add header value (_headers self)) self.

(** ** A monad for handler methods: the handler is threaded through, an
    exception ends the computation. *)

Definition M (A : Type) : Type := Handler -> Handler * result A.

Definition ret {A} (a : A) : M A := fun self => (self, Returns a).

Definition raise {A} (e : exn) : M A := fun self => (self, Raises e).

Definition bind {A B} (c : M A) (k : A -> M B) : M B :=
  fun self =>
    match c self with
    | (self', Returns a) => k a self'
    | (self', Raises e) => (self', Raises e)
    end.

(** [self.attr] *)
Definition gets {A} (f : Handler -> A) : M A := fun self => (self, Returns (f self)).

(** A statement that changes the handler and cannot fail. *)
Definition modify (f : Handler -> Handler) : M unit := fun self => (f self, Returns tt).

(** A call whose outcome the world decides. *)
Definition outcome {A} (r : result A) : M A := fun self => (self, r).

(** [if b: c] *)
Definition when (b : bool) (c : M unit) : M unit := if b then c else ret tt.

(** [try: body except: handler; raise] *)
Definition try_except_reraise {A} (body : M A) (handler : M unit) : M A :=
  fun self =>
    match body self with
    | (self', Returns a) => (self', Returns a)
    | (self', Raises e) =>
        match handler self' with
        | (self'', Returns _) => (self'', Raises e)
        | (self'', Raises e') => (self'', Raises e')
        end
    end.

(** [with lock: body]: the lock is released however the body ends. *)
Definition with_lock {A} (body : M A) : M A :=
  fun self =>
    match body (emit LockAcquired self) with
    | (self', r) => (emit LockReleased self', r)
    end.

Declare Scope handler_scope.
Delimit Scope handler_scope with handler.
Notation "x <- c ;; k" := (bind c (fun x => k))
  (at level 100, c at next level, right associativity) : handler_scope.
Notation "c ;; k" := (bind c (fun _ => k))
  (at level 100, right associativity) : handler_scope.

Local Open Scope handler_scope.

(** [x in (a, b, ...)] for strings *)
Definition in_tuple (x : string) (items : list string) : bool :=
  existsb (String.eqb x) items.

(** The double quote character, as a string. *)
Definition dquote : string := String (ascii_of_N 34) EmptyString.

(** ** [WebSocketHandlerMixin] *)

Module WebSocketHandlerMixin.

(** Where [get] sends a GET request: to [http_get], which is [proxy], or to
    Tornado's WebSocket handshake. *)
Inductive route : Type := ViaHttpGet | ViaWebSocketHandler.

(** [get] *)
Definition get (req : HTTPServerRequest) : route :=
  if negb (String.eqb (Text.lower (HTTPHeaders.get "Upgrade" EmptyString (headers req)))
             "websocket")
  then ViaHttpGet
  else ViaWebSocketHandler.

End WebSocketHandlerMixin.

(** ** [LocalProxyHandler] *)

Module LocalProxyHandler.

Section WithPathJoin.

(** [url_path_join] of [qpod/proxy/utils.py], a module that is not among the
    sources: the handlers are read for any such function. *)
Variable url_path_join : list string -> string.

(** [__init__]: [proxy_base] is the empty string, [rewrite] the keyword
    argument of that name, ['/'] when absent.  [base_url] comes from the
    parent class, [name] is the class attribute of [SuperviseAndProxyHandler],
    and the response starts as Tornado's [RequestHandler] leaves it (status
    200, its default headers, nothing written). *)
Definition __init__ (base : string) (rewrite_kwarg : option string)
    (req : HTTPServerRequest) (default_headers : HTTPHeaders.t) : Handler :=
  mkHandler base EmptyString
    (match rewrite_kwarg with Some r => r | None => "/" end)
    "process" req 200 (StandardReason 200) default_headers [] None
    (mkState None None None) [].

(** [_record_activity] *)
Definition _record_activity : M unit := modify (emit Activity).

(** [_get_context_path] *)
Definition _get_context_path (self : Handler) (port : port_arg) : result string :=
  if Text.truthy (proxy_base self) then
    Returns (url_path_join [base_url self; proxy_base self])
  else if in_tuple (rewrite self) ["/"; EmptyString] then
    Returns (url_path_join [base_url self; "proxy"; str_port port])
  else
    Raises (ValueError ("Unsupported rewrite: " +:+ dquote +:+ rewrite self +:+ dquote)).

(** [proxy_request_headers] *)
Definition proxy_request_headers (self : Handler) : HTTPHeaders.t :=
  HTTPHeaders.copy (headers (request self)).

(** [proxy_request_options]: [dict(follow_redirects=False)] *)
Definition proxy_request_options : bool := false.

(** [_build_proxy_request] *)
Definition _build_proxy_request (self : Handler) (port : port_arg)
    (proxied_path : string) (body : option string) : result HTTPRequest :=
  match _get_context_path self port with
  | Raises e => Raises e
  | Returns context_path =>
      let client_path :=
        if Text.truthy (rewrite self) then proxied_path
        else url_path_join [context_path; proxied_path] in
      let client_uri := "http://localhost" +:+ ":" +:+ str_port port +:+ client_path in
      let client_uri :=
        if Text.truthy (query (request self))
        then client_uri +:+ "?" +:+ query (request self)
        else client_uri in
      let headers := proxy_request_headers self in
      let headers :=
        if Text.truthy (rewrite self) then
          HTTPHeaders.setitem "X-ProxyContextPath" context_path
            (HTTPHeaders.setitem "X-Forwarded-Context" context_path headers)
        else headers in
      Returns (mkHTTPRequest client_uri (method (request self)) body headers
                 proxy_request_options)
  end.

(** The body handed to [_build_proxy_request]: lines 267-272 of [proxy]. *)
Definition request_body (req : HTTPServerRequest) : option string :=
  let body := body req in
  if negb (Text.truthy body) then
    if String.eqb (method req) "POST" then Some EmptyString else None
  else Some body.

(** The headers of the backend's response that are not copied. *)
Definition not_relayed : list string :=
  ["Content-Length"; "Transfer-Encoding"; "Content-Encoding"; "Connection"].

(** The loop over [response.headers.get_all()] at the end of [proxy]. *)
Definition relay_headers (pairs : list (string * string)) (self : Handler) : Handler :=
  fold_left
    (fun self hv =>
       if negb (in_tuple (fst hv) not_relayed)
       then add_header (fst hv) (snd hv) self
       else self)
    pairs self.

(** [response.error and type(response.error) is not httpclient.HTTPError]:
    the error when the test holds. *)
Definition non_http_error (response : HTTPResponse) : option client_error :=
  match error response with
  | Some err => if negb (is_HTTPError err) then Some err else None
  | None => None
  end.

(** [proxy]; [fetch] is the backend as the HTTP client sees it. *)
Definition proxy (fetch : HTTPRequest -> HTTPResponse)
    (port : port_arg) (proxied_path : string) : M unit :=
  req <- gets request ;;
  when (HTTPHeaders.contains "Proxy-Connection" (headers req))
    (modify (with_request
       (mkServerRequest (method req) (query req)
          (HTTPHeaders.delitem "Proxy-Connection" (headers req)) (body req)))) ;;
  _record_activity ;;
  req <- gets request ;;
  when (String.eqb (Text.lower (HTTPHeaders.get "Upgrade" EmptyString (headers req)))
          "websocket")
    (modify (emit (LogInfo "we wanna websocket, but we don't define WebSocketProxyHandler")) ;;
     modify (set_status 500 None)) ;;
  let body := request_body req in
  self <- gets id ;;
  req <- outcome (_build_proxy_request self port proxied_path body) ;;
  modify (emit (Fetch req)) ;;
  let response := fetch req in
  _record_activity ;;
  match non_http_error response with
  | Some err =>
      modify (set_status 500 None) ;;
      modify (write (error_str err))
  | None =>
      modify (set_status (code response) (Some (reason response))) ;;
      modify (with_headers HTTPHeaders.empty) ;;
      modify (relay_headers (HTTPHeaders.get_all (resp_headers response))) ;;
      match resp_body response with
      | Some b => when (Text.truthy b) (modify (write b))
      | None => ret tt
      end
  end.

(** [open]: returns the URI that [start_websocket_connection] is scheduled
    with, the callback sharing the request's header object. *)
Definition open (port : port_arg) (proxied_path : string) : M string :=
  let proxied_path :=
    if negb (Text.startswith proxied_path "/") then "/" +:+ proxied_path
    else proxied_path in
  let client_uri := "ws://127.0.0.1" +:+ ":" +:+ str_port port +:+ proxied_path in
  req <- gets request ;;
  let client_uri :=
    if Text.truthy (query req) then client_uri +:+ "?" +:+ query req
    else client_uri in
  modify (emit (AddCallback client_uri)) ;;
  ret client_uri.

(** [start_websocket_connection], the callback [open] schedules, with the
    [client_uri] it closes over; [connected] is how the connection attempt
    ends. *)
Definition start_websocket_connection (client_uri : string)
    (connected : result unit) : M unit :=
  modify (emit (LogInfo ("Trying to establish websocket connection to " +:+ client_uri))) ;;
  _record_activity ;;
  req <- gets request ;;
  let request := HTTPRequest_defaults client_uri (headers req) in
  modify (emit (WsConnect request)) ;;
  outcome connected ;;
  modify (with_ws (Some request)) ;;
  _record_activity ;;
  modify (emit (LogInfo ("Websocket connection established to " +:+ client_uri))).

End WithPathJoin.

End LocalProxyHandler.

(** ** [SuperviseAndProxyHandler] *)

Module SuperviseAndProxyHandler.

(** What the world does during one call of [ensure_process]: what the
    subclass's [get_cmd] answers, the environment of the serving process, and
    how starting, awaiting and killing the supervised process end. *)
Record attempt : Type := mkAttempt {
  get_cmd_result : result (list string);
  os_environ : gmap string string;
  start_result : result unit;
  ready_result : result bool;
  kill_result : result unit
}.

(** [initialize] *)
Definition initialize (st : TargetState) (self : Handler) : Handler :=
  with_state
    (match proc_lock st with
     | None => mkState (Some tt) (port st) (proc st)
     | Some _ => st
     end)
    self.

(** [get_env] *)
Definition get_env : gmap string string := ∅.

(** [get_timeout] *)
Definition get_timeout : Z := 5.

(** [self.state['proc'] = proc] *)
Definition set_proc (p : SupervisedProcess) (self : Handler) : Handler :=
  with_state (mkState (proc_lock (state self)) (port (state self)) (Some p)) self.

(** [del self.state['proc']] *)
Definition del_proc (self : Handler) : Handler :=
  with_state (mkState (proc_lock (state self)) (port (state self)) None) self.

(** [ensure_process] *)
Definition ensure_process (w : attempt) : M unit :=
  st <- gets state ;;
  match proc_lock st with
  | None => raise (KeyError "proc_lock")
  | Some _ =>
      with_lock (
        st <- gets state ;;
        match proc st with
        | Some _ => ret tt
        | None =>
            cmd <- outcome (get_cmd_result w) ;;
            (* [dict.update]: the entries of [get_env] win *)
            let server_env := get_env ∪ os_environ w in
            let timeout := get_timeout in
            name <- gets name ;;
            let proc := mkSupervisedProcess name cmd server_env timeout in
            modify (set_proc proc) ;;
            try_except_reraise (
              modify (emit (ProcStart proc)) ;;
              outcome (start_result w) ;;
              modify (emit (ProcReady proc)) ;;
              is_ready <- outcome (ready_result w) ;;
              when (negb is_ready) (
                modify (emit (ProcKill proc)) ;;
                outcome (kill_result w) ;;
                raise (HTTPError 500 ("could not start " +:+ name +:+ " in time"))))
              (modify del_proc)
        end)
  end.

(** One request's call: Tornado makes a handler for the request, calls
    [initialize] with the target's dictionary, and the request method calls
    [ensure_process]. *)
Definition request_ensure_process (w : attempt) : M unit :=
  fun self => ensure_process w (initialize (state self) self).

(** Calls one after the other on the same target, with the results of all. *)
Fixpoint ensure_process_calls (ws : list attempt) (self : Handler)
    : Handler * list (result unit) :=
  match ws with
  | [] => (self, [])
  | w :: rest =>
      match request_ensure_process w self with
      | (self', r) =>
          match ensure_process_calls rest self' with
          | (self'', rs) => (self'', r :: rs)
          end
      end
  end.

(** The [port] property; [ephemeral] is the number the operating system gives
    to a socket bound to port 0. *)
Definition port (ephemeral : N) : M N :=
  st <- gets state ;;
  match st with
  | mkState lock None process =>
      modify (with_state (mkState lock (Some ephemeral) process)) ;;
      ret ephemeral
  | mkState _ (Some n) _ => ret n
  end.

Section WithPathJoin.

Variable url_path_join : list string -> string.

(** [proxy] *)
Definition proxy (w : attempt) (ephemeral : N)
    (fetch : HTTPRequest -> HTTPResponse) (path : string) : M unit :=
  let path := if negb (Text.startswith path "/") then "/" +:+ path else path in
  ensure_process w ;;
  p <- port ephemeral ;;
  LocalProxyHandler.proxy url_path_join fetch (PortNumber p) path.

(** [open] *)
Definition open (w : attempt) (ephemeral : N) (path : string) : M string :=
  ensure_process w ;;
  p <- port ephemeral ;;
  LocalProxyHandler.open (PortNumber p) path.

End WithPathJoin.

End SuperviseAndProxyHandler.

(** The requests sent to the backend in a run of events, in order. *)
Fixpoint fetched (evs : list event) : list HTTPRequest :=
  match evs with
  | [] => []
  | Fetch req :: rest => req :: fetched rest
  | _ :: rest => fetched rest
  end.

(** Is this event the start of a supervised process? *)
Definition is_spawn (e : event) : bool :=
  match e with ProcStart _ => true | _ => false end.

(** The number of processes started in a run of events. *)
Definition spawns (evs : list event) : nat := length (List.filter is_spawn evs).

(** Modelled from the spec: [url_path_join] of [qpod/proxy/utils.py], which is
    not among the sources.  The design document writes what it returns as
    [{base}/proxy/{port}] and [{base}/{proxy_base}]: the pieces with a slash
    between them. *)
Definition url_path_join (pieces : list string) : string :=
  String.concat "/" pieces.

(** ** The WebSocket callbacks of [LocalProxyHandler] *)

(** A WebSocket message as Tornado hands it to a callback: a [str] for a
    text frame, [bytes] for a binary frame. *)
Inductive ws_message : Type :=
| TextMessage (text : string)
| BinaryMessage (data : string).

(** What a callback sends on the two connections of a session. *)
Inductive ws_action : Type :=
| BackendWrite (message : ws_message) (binary : bool)  (* [self.ws.write_message(message, binary=...)] *)
| BackendPing (data : string)                          (* [self.ws.protocol.write_ping(data)] *)
| BackendClose                                         (* [self.ws.close()] *)
| FrontWrite (message : ws_message) (binary : bool)    (* [self.write_message(message, binary=...)] *)
| FrontPing (data : string)                            (* [self.ping(data)] *)
| FrontClose.                                          (* [self.close()] *)

Module WebSocketCallbacks.

(** [isinstance(message, bytes)] *)
Definition is_bytes (message : ws_message) : bool :=
  match message with
  | TextMessage _ => false
  | BinaryMessage _ => true
  end.

(** [on_message]; [hasattr(self, 'ws')] is [ws self] being [Some _]. *)
Definition on_message (message : ws_message) : M (list ws_action) :=
  LocalProxyHandler._record_activity ;;
  w <- gets ws ;;
  match w with
  | Some _ => ret [BackendWrite message (is_bytes message)]
  | None => ret []
  end.

(** [on_ping] (its debug log is not an event) *)
Definition on_ping (data : string) : M (list ws_action) :=
  LocalProxyHandler._record_activity ;;
  w <- gets ws ;;
  match w with
  | Some _ => ret [BackendPing data]
  | None => ret []
  end.

(** [on_pong]: a debug log only *)
Definition on_pong (data : string) : M (list ws_action) := ret [].

(** [on_close] *)
Definition on_close : M (list ws_action) :=
  w <- gets ws ;;
  match w with
  | Some _ => ret [BackendClose]
  | None => ret []
  end.

(** [message_cb], the callback [open] gives to the backend connection;
    [None] is the end of the backend's stream. *)
Definition message_cb (message : option ws_message) : M (list ws_action) :=
  LocalProxyHandler._record_activity ;;
  match message with
  | None => ret [FrontClose]
  | Some m => ret [FrontWrite m (is_bytes m)]
  end.

(** [ping_cb], the other callback of the backend connection *)
Definition ping_cb (data : string) : M (list ws_action) :=
  LocalProxyHandler._record_activity ;;
  ret [FrontPing data].

(** What happens to a session, one thing at a time: Tornado calls the
    handler's methods for what the front side sends, the backend connection
    calls the two callbacks, and the IOLoop runs the scheduled
    [start_websocket_connection]. *)
Inductive input : Type :=
| FrontMessage (message : ws_message)
| FrontPinged (data : string)
| FrontPonged (data : string)
| FrontClosed
| BackendMessage (message : option ws_message)
| BackendPinged (data : string)
| ConnectionAttempt (client_uri : string) (connected : result unit).

(** The call made for one input.  An exception that leaves the scheduled
    callback goes to the IOLoop, not to the handler. *)
Definition deliver (i : input) (self : Handler) : Handler * list ws_action :=
  let run (c : M (list ws_action)) :=
    match c self with
    | (self', Returns actions) => (self', actions)
    | (self', Raises _) => (self', [])
    end in
  match i with
  | FrontMessage message => run (on_message message)
  | FrontPinged data => run (on_ping data)
  | FrontPonged data => run (on_pong data)
  | FrontClosed => run on_close
  | BackendMessage message => run (message_cb message)
  | BackendPinged data => run (ping_cb data)
  | ConnectionAttempt client_uri connected =>
      (fst (LocalProxyHandler.start_websocket_connection client_uri connected self), [])
  end.

(** The inputs of a session in their order, with all that is sent. *)
Fixpoint session (inputs : list input) (self : Handler) : Handler * list ws_action :=
  match inputs with
  | [] => (self, [])
  | i :: rest =>
      match deliver i self with
      | (self', actions) =>
          match session rest self' with
          | (self'', more) => (self'', actions ++ more)
          end
      end
  end.

End WebSocketCallbacks.

(** Is this action one on the backend connection? *)
Definition to_backend (a : ws_action) : bool :=
  match a with
  | BackendWrite _ _ | BackendPing _ | BackendClose => true
  | _ => false
  end.

(** The messages the front side sent, in order. *)
Definition front_messages (inputs : list WebSocketCallbacks.input) : list ws_message :=
  flat_map
    (fun i => match i with WebSocketCallbacks.FrontMessage m => [m] | _ => [] end)
    inputs.

(** The messages written to the backend, in order. *)
Definition backend_writes (actions : list ws_action) : list ws_message :=
  flat_map (fun a => match a with BackendWrite m _ => [m] | _ => [] end) actions.

(** ** The readiness probe of [SuperviseAndProxyHandler] *)

Module ReadinessProbe.

(** How [session.get(url)] ends: with a response, of whatever status, with
    aiohttp's [ClientConnectionError], or with another exception. *)
Inductive get_outcome : Type :=
| Responded (status : Z)
| ClientConnectionError
| GetRaises (e : exn).

(** [_http_ready_func]; [get] is the network as the client session sees it.
    The debug logs are not events. *)
Definition _http_ready_func (ephemeral : N) (get : string -> get_outcome) : M bool :=
  p <- SuperviseAndProxyHandler.port ephemeral ;;
  let url := "http://localhost:" +:+ Text.str_of_N p in
  match get url with
  | Responded _ => ret true
  | ClientConnectionError => ret false
  | GetRaises e => raise e
  end.

End ReadinessProbe.

(** ** [ServersInfoHandler] *)

Module ServersInfoHandler.

Section WithValues.

(** The values of the entries of [server_processes]: any Python objects,
    strings among them. *)
Variable value : Type.
Variable of_str : string -> value.

(** [get]: the list written under the key ['server_processes']. *)
Definition get (server_processes : list (gmap string value)) : list (gmap string value) :=
  map
    (fun sp =>
       {[ "name" := match sp !! "name" with Some n => n | None => of_str "Unknown" end ]})
    server_processes.

End WithValues.

End ServersInfoHandler.

(** The number of times activity was recorded in a run of events. *)
Definition activities (evs : list event) : nat :=
  length (List.filter (fun e => match e with Activity => true | _ => false end) evs).

(** Is this event the taking or the release of the lock? *)
Definition is_lock_event (e : event) : bool :=
  match e with LockAcquired | LockReleased => true | _ => false end.

(** Did this call raise? *)
Definition raised {A} (r : result A) : bool :=
  match r with Raises _ => true | Returns _ => false end.

(** [state.get('port')] of the handler's target. *)
Definition allocated_port (self : Handler) : option N := port (state self).

(** The port a read of the [port] property gives: the one in the state, or
    the fresh one when there is none. *)
Definition port_read (ephemeral : N) (self : Handler) : N :=
  match allocated_port self with Some n => n | None => ephemeral end.

(** Is this input a connection attempt that succeeds? *)
Definition established (i : WebSocketCallbacks.input) : bool :=
  match i with
  | WebSocketCallbacks.ConnectionAttempt _ (Returns _) => true
  | _ => false
  end.

(** The messages the backend sent, in order. *)
Definition backend_messages (inputs : list WebSocketCallbacks.input) : list ws_message :=
  flat_map
    (fun i => match i with WebSocketCallbacks.BackendMessage (Some m) => [m] | _ => [] end)
    inputs.

(** The messages written to the front side, in order. *)
Definition front_writes (actions : list ws_action) : list ws_message :=
  flat_map (fun a => match a with FrontWrite m _ => [m] | _ => [] end) actions.

(** Does this write say [binary] for [bytes] and for nothing else? *)
Definition flagged_by_type (a : ws_action) : bool :=
  match a with
  | BackendWrite m b | FrontWrite m b => Bool.eqb b (WebSocketCallbacks.is_bytes m)
  | _ => true
  end.

(** How many times the handler records activity for an input. *)
Definition traffic (i : WebSocketCallbacks.input) : nat :=
  match i with
  | WebSocketCallbacks.FrontMessage _ | WebSocketCallbacks.FrontPinged _
  | WebSocketCallbacks.BackendMessage _ | WebSocketCallbacks.BackendPinged _ => 1
  | WebSocketCallbacks.ConnectionAttempt _ (Returns _) => 2
  | WebSocketCallbacks.ConnectionAttempt _ (Raises _) => 1
  | WebSocketCallbacks.FrontPonged _ | WebSocketCallbacks.FrontClosed => 0
  end.

(** A session before the backend is connected: a text frame, a ping, a
    failed connection attempt, a binary frame, the close. *)
Definition sample_unconnected_session : list WebSocketCallbacks.input :=
  [WebSocketCallbacks.FrontMessage (TextMessage "hello");
   WebSocketCallbacks.FrontPinged "1";
   WebSocketCallbacks.ConnectionAttempt "ws://127.0.0.1:9000/ws"
     (Raises (OtherError "[Errno 111] Connection refused"));
   WebSocketCallbacks.FrontMessage (BinaryMessage "data");
   WebSocketCallbacks.FrontClosed].

(** A session that connects and then carries frames both ways. *)
Definition sample_connected_session : list WebSocketCallbacks.input :=
  [WebSocketCallbacks.FrontMessage (TextMessage "lost");
   WebSocketCallbacks.ConnectionAttempt "ws://127.0.0.1:9000/ws" (Returns tt);
   WebSocketCallbacks.FrontMessage (TextMessage "hello");
   WebSocketCallbacks.BackendMessage (Some (BinaryMessage "data"));
   WebSocketCallbacks.FrontPinged "1";
   WebSocketCallbacks.FrontPonged "1";
   WebSocketCallbacks.BackendPinged "2";
   WebSocketCallbacks.FrontMessage (BinaryMessage "more");
   WebSocketCallbacks.BackendMessage None;
   WebSocketCallbacks.FrontClosed].

(** The inputs that follow the first connection attempt that succeeds. *)
Fixpoint after_connection (inputs : list WebSocketCallbacks.input)
    : list WebSocketCallbacks.input :=
  match inputs with
  | [] => []
  | i :: rest => if established i then rest else after_connection rest
  end.

(** A handler whose backend WebSocket is connected. *)
Definition sample_connected_handler : Handler :=
  mkHandler "/app" EmptyString "/" "process"
    (mkServerRequest "GET" EmptyString HTTPHeaders.empty EmptyString)
    200 (StandardReason 200) HTTPHeaders.empty [] 
    (Some (HTTPRequest_defaults "ws://127.0.0.1:9000/ws" HTTPHeaders.empty))
    (mkState None None None) [].

(** ** The design document's wording, for comparison with the code *)

(** The methods whose requests carry a body; the others are the bodiless
    methods. *)
Definition carries_body (m : string) : bool := in_tuple m ["POST"; "PUT"; "PATCH"].

(** The body of a forwarded request whose inbound body is empty, in the
    design document's words: the empty byte sequence for bodiless methods,
    absent for the others. *)
Definition documented_empty_body (m : string) : option string :=
  if negb (carries_body m) then Some EmptyString else None.

(** The backend WebSocket URI in the design document's words:
    [ws://localhost:<port><path>[?query]]. *)
Definition documented_ws_uri (port : port_arg) (path query : string) : string :=
  "ws://localhost:" +:+ str_port port +:+ path +:+
  (if Text.truthy query then "?" +:+ query else EmptyString).

(** ** Sample inputs *)

(** A POST without body that asks for a WebSocket upgrade through a proxy. *)
Definition sample_request : HTTPServerRequest :=
  mkServerRequest "POST" "x=1"
    (HTTPHeaders.of_pairs
       [("Host", "hub.example"); ("upgrade", "WebSocket");
        ("Proxy-Connection", "keep-alive")])
    EmptyString.

Definition sample_handler : Handler :=
  LocalProxyHandler.__init__ "/app" None sample_request
    (HTTPHeaders.of_pairs [("Content-Type", "text/html; charset=UTF-8")]).

(** A backend nobody listens on. *)
Definition backend_unreachable (req : HTTPRequest) : HTTPResponse :=
  mkHTTPResponse 599 "Unknown" HTTPHeaders.empty None
    (Some (mkClientError false "[Errno 111] Connection refused")).

(** A backend that answers 404. *)
Definition backend_not_found (req : HTTPRequest) : HTTPResponse :=
  mkHTTPResponse 404 "Not Found"
    (HTTPHeaders.of_pairs
       [("content-length", "9"); ("Set-Cookie", "a=1"); ("X-Served-By", "backend");
        ("Set-Cookie", "b=2"); ("Connection", "close")])
    (Some "not found")
    (Some (mkClientError true "HTTP 404: Not Found")).

(** The handler after [proxy] served the sample request, with the backend
    unreachable and with the backend answering 404. *)
Definition sample_reply_unreachable : Handler :=
  fst (LocalProxyHandler.proxy url_path_join backend_unreachable (PortText "9000") "/foo"
         sample_handler).

Definition sample_reply_not_found : Handler :=
  fst (LocalProxyHandler.proxy url_path_join backend_not_found (PortText "9000") "/foo"
         sample_handler).

(** Attempts to start the backend: one where [start] raises, one where the
    process never answers the readiness probe, one where it does. *)
Definition attempt_start_fails : SuperviseAndProxyHandler.attempt :=
  SuperviseAndProxyHandler.mkAttempt (Returns ["backend"; "--port=9000"]) ∅
    (Raises (OtherError "[Errno 2] No such file or directory: 'backend'"))
    (Returns false) (Returns tt).

Definition attempt_never_ready : SuperviseAndProxyHandler.attempt :=
  SuperviseAndProxyHandler.mkAttempt (Returns ["backend"; "--port=9000"]) ∅
    (Returns tt) (Returns false) (Returns tt).

Definition attempt_ready : SuperviseAndProxyHandler.attempt :=
  SuperviseAndProxyHandler.mkAttempt (Returns ["backend"; "--port=9000"]) ∅
    (Returns tt) (Returns true) (Returns tt).

(** A handler of a subclass that serves a named target: [proxy_base] is set,
    and [rewrite] is neither of the two modes the handler tells apart. *)
Definition sample_named_handler : Handler :=
  mkHandler "/app" "lab" "strip" "process" sample_request 200 (StandardReason 200)
    HTTPHeaders.empty [] None (mkState None None None) [].

(** * Properties *)

(** ** Characters and header names *)

Lemma lower_char_idem c : Text.lower_char (Text.lower_char c) = Text.lower_char c.
Proof. destruct c as [[] [] [] [] [] [] [] []]; reflexivity. Qed.

Lemma upper_char_idem c : Text.upper_char (Text.upper_char c) = Text.upper_char c.
Proof. destruct c as [[] [] [] [] [] [] [] []]; reflexivity. Qed.

Lemma upper_lower_char c : Text.upper_char (Text.lower_char c) = Text.upper_char c.
Proof. destruct c as [[] [] [] [] [] [] [] []]; reflexivity. Qed.

Lemma lower_upper_char c : Text.lower_char (Text.upper_char c) = Text.lower_char c.
Proof. destruct c as [[] [] [] [] [] [] [] []]; reflexivity. Qed.

Lemma dash_lower_char c : Ascii.eqb (Text.lower_char c) "-" = Ascii.eqb c "-".
Proof. destruct c as [[] [] [] [] [] [] [] []]; reflexivity. Qed.

Lemma dash_upper_char c : Ascii.eqb (Text.upper_char c) "-" = Ascii.eqb c "-".
Proof. destruct c as [[] [] [] [] [] [] [] []]; reflexivity. Qed.

(** Normalising ignores the case of what it is given. *)
Lemma normalize_from_lower start s :
  HTTPHeaders.normalize_from start (Text.lower s) = HTTPHeaders.normalize_from start s.
Proof.
  revert start; induction s as [|c s IH]; intros start; simpl; [reflexivity|].
  rewrite dash_lower_char, IH.
  destruct start; [rewrite upper_lower_char | rewrite lower_char_idem]; reflexivity.
Qed.

Lemma normalize_from_idem start s :
  HTTPHeaders.normalize_from start (HTTPHeaders.normalize_from start s)
  = HTTPHeaders.normalize_from start s.
Proof.
  revert start; induction s as [|c s IH]; intros start; simpl; [reflexivity|].
  destruct start.
  - rewrite dash_upper_char, IH, upper_char_idem. reflexivity.
  - rewrite dash_lower_char, IH, lower_char_idem. reflexivity.
Qed.

Lemma normalize_idem name :
  HTTPHeaders.normalize (HTTPHeaders.normalize name) = HTTPHeaders.normalize name.
Proof. apply normalize_from_idem. Qed.

(** Two names that differ only in case have the same normal form. *)
Lemma normalize_same_lower a b :
  Text.lower a = Text.lower b -> HTTPHeaders.normalize a = HTTPHeaders.normalize b.
Proof.
  intros H. unfold HTTPHeaders.normalize.
  rewrite <- (normalize_from_lower true a), <- (normalize_from_lower true b), H.
  reflexivity.
Qed.

(** ** The header dictionary *)

Lemma has_key_add_norm k norm v h :
  HTTPHeaders.has_key k (HTTPHeaders.add_norm norm v h)
  = HTTPHeaders.has_key k h || String.eqb norm k.
Proof.
  induction h as [|[k' vs] h IH]; simpl.
  - rewrite orb_false_r. reflexivity.
  - destruct (String.eqb_spec k' norm) as [->|Hne]; simpl.
    + destruct (String.eqb norm k), (HTTPHeaders.has_key k h); reflexivity.
    + rewrite IH. destruct (String.eqb k' k); reflexivity.
Qed.

Lemma wf_add_norm norm v h :
  HTTPHeaders.normalize norm = norm ->
  HTTPHeaders.wf h = true -> HTTPHeaders.wf (HTTPHeaders.add_norm norm v h) = true.
Proof.
  intros Hn. induction h as [|[k vs] h IH]; simpl.
  - intros _. rewrite Hn, String.eqb_refl. reflexivity.
  - intros H. apply andb_prop in H as [H Hwf]. apply andb_prop in H as [H Hk].
    apply andb_prop in H as [Hnk Hvs].
    destruct (String.eqb_spec k norm) as [->|Hne]; simpl.
    + rewrite Hnk, Hk, Hwf. destruct vs; reflexivity.
    + rewrite Hnk, Hvs, (IH Hwf), has_key_add_norm. simpl.
      apply negb_true_iff in Hk. rewrite Hk. simpl.
      destruct (String.eqb_spec norm k) as [->|_]; [contradiction|reflexivity].
Qed.

(** [add] keeps a header object well formed. *)
Lemma wf_add name v h :
  HTTPHeaders.wf h = true -> HTTPHeaders.wf (HTTPHeaders.add name v h) = true.
Proof. apply wf_add_norm, normalize_idem. Qed.

Lemma wf_add_all pairs h :
  HTTPHeaders.wf h = true -> HTTPHeaders.wf (HTTPHeaders.add_all pairs h) = true.
Proof.
  revert h; induction pairs as [|[k v] pairs IH]; intros h H; simpl; [exact H|].
  apply IH, wf_add, H.
Qed.

Lemma has_key_set_norm k norm v h :
  HTTPHeaders.has_key k (HTTPHeaders.set_norm norm v h)
  = HTTPHeaders.has_key k h || String.eqb norm k.
Proof.
  induction h as [|[k' vs] h IH]; simpl.
  - rewrite orb_false_r. reflexivity.
  - destruct (String.eqb_spec k' norm) as [->|Hne]; simpl.
    + destruct (String.eqb norm k), (HTTPHeaders.has_key k h); reflexivity.
    + rewrite IH. destruct (String.eqb k' k); reflexivity.
Qed.

(** [h[name] = value] keeps a header object well formed. *)
Lemma wf_setitem name v h :
  HTTPHeaders.wf h = true -> HTTPHeaders.wf (HTTPHeaders.setitem name v h) = true.
Proof.
  unfold HTTPHeaders.setitem. pose proof (normalize_idem name) as Hn.
  set (norm := HTTPHeaders.normalize name) in *. clearbody norm.
  induction h as [|[k vs] h IH]; simpl.
  - intros _. rewrite Hn, String.eqb_refl. reflexivity.
  - intros H. apply andb_prop in H as [H Hwf]. apply andb_prop in H as [H Hk].
    apply andb_prop in H as [Hnk Hvs].
    destruct (String.eqb_spec k norm) as [->|Hne]; simpl.
    + rewrite Hnk, Hk, Hwf. reflexivity.
    + rewrite Hnk, Hvs, (IH Hwf), has_key_set_norm. simpl.
      apply negb_true_iff in Hk. rewrite Hk. simpl.
      destruct (String.eqb_spec norm k) as [->|_]; [contradiction|reflexivity].
Qed.

Lemma has_key_del_norm k norm h :
  HTTPHeaders.has_key k h = false ->
  HTTPHeaders.has_key k (HTTPHeaders.del_norm norm h) = false.
Proof.
  induction h as [|[k' vs] h IH]; simpl; [reflexivity|].
  intros H. apply orb_false_elim in H as [Hk Hh].
  destruct (String.eqb k' norm); simpl; [exact Hh|]. rewrite Hk, (IH Hh). reflexivity.
Qed.

(** [del h[name]] keeps a header object well formed. *)
Lemma wf_delitem name h :
  HTTPHeaders.wf h = true -> HTTPHeaders.wf (HTTPHeaders.delitem name h) = true.
Proof.
  unfold HTTPHeaders.delitem. generalize (HTTPHeaders.normalize name) as norm.
  intros norm. induction h as [|[k vs] h IH]; simpl; [reflexivity|].
  intros H. apply andb_prop in H as [H Hwf]. apply andb_prop in H as [H Hk].
  destruct (String.eqb k norm); simpl; [exact Hwf|].
  rewrite H, (IH Hwf). apply negb_true_iff in Hk.
  rewrite (has_key_del_norm _ _ _ Hk). reflexivity.
Qed.

(** A header block read from a connection is a well-formed header object. *)
Lemma wf_of_pairs pairs : HTTPHeaders.wf (HTTPHeaders.of_pairs pairs) = true.
Proof. apply wf_add_all. reflexivity. Qed.

Lemma has_key_cons k k' vs h :
  HTTPHeaders.has_key k ((k', vs) :: h) = String.eqb k' k || HTTPHeaders.has_key k h.
Proof. reflexivity. Qed.

Lemma has_key_app k a b :
  HTTPHeaders.has_key k (a ++ b) = HTTPHeaders.has_key k a || HTTPHeaders.has_key k b.
Proof. unfold HTTPHeaders.has_key. apply existsb_app. Qed.

Lemma add_norm_fresh k v acc :
  HTTPHeaders.has_key k acc = false ->
  HTTPHeaders.add_norm k v acc = acc ++ [(k, [v])].
Proof.
  induction acc as [|[k' vs] acc IH]; simpl; [reflexivity|].
  intros H. apply orb_false_elim in H as [Hk Hacc].
  rewrite Hk, (IH Hacc). reflexivity.
Qed.

Lemma add_norm_last k v acc l :
  HTTPHeaders.has_key k acc = false ->
  HTTPHeaders.add_norm k v (acc ++ [(k, l)]) = acc ++ [(k, l ++ [v])].
Proof.
  induction acc as [|[k' vs] acc IH]; simpl.
  - intros _. rewrite String.eqb_refl. reflexivity.
  - intros H. apply orb_false_elim in H as [Hk Hacc].
    rewrite Hk, (IH Hacc). reflexivity.
Qed.

(** One turn of the loop that copies the backend's headers, on the header
    object alone. *)
Lemma relay_headers_fold pairs self :
  LocalProxyHandler.relay_headers pairs self
  = with_headers
      (fold_left
         (fun h hv =>
            if negb (in_tuple (fst hv) LocalProxyHandler.not_relayed)
            then HTTPHeaders.add (fst hv) (snd hv) h else h)
         pairs (_headers self))
      self.
Proof.
  unfold LocalProxyHandler.relay_headers.
  revert self; induction pairs as [|hv pairs IH]; intros self; cbn [fold_left].
  - destruct self; reflexivity.
  - rewrite IH. destruct (negb (in_tuple (fst hv) LocalProxyHandler.not_relayed));
      destruct self; reflexivity.
Qed.

Section RelayLoop.

Let kept (k : string) : bool := negb (in_tuple k LocalProxyHandler.not_relayed).

Let step (h : HTTPHeaders.t) (hv : string * string) : HTTPHeaders.t :=
  if kept (fst hv) then HTTPHeaders.add (fst hv) (snd hv) h else h.

Lemma step_kept k v h : kept k = true -> step h (k, v) = HTTPHeaders.add k v h.
Proof. unfold step. cbn [fst snd]. intros ->. reflexivity. Qed.

Lemma step_skipped k v h : kept k = false -> step h (k, v) = h.
Proof. unfold step. cbn [fst snd]. intros ->. reflexivity. Qed.

Lemma relay_loop_skips k vs acc :
  kept k = false -> fold_left step (map (pair k) vs) acc = acc.
Proof.
  intros Hk. induction vs as [|v vs IH]; cbn [map fold_left]; [reflexivity|].
  rewrite step_skipped by exact Hk. exact IH.
Qed.

Lemma relay_loop_appends k vs acc l :
  kept k = true -> HTTPHeaders.normalize k = k -> HTTPHeaders.has_key k acc = false ->
  fold_left step (map (pair k) vs) (acc ++ [(k, l)]) = acc ++ [(k, l ++ vs)].
Proof.
  intros Hk Hn Hacc. revert l; induction vs as [|v vs IH]; intros l; cbn [map fold_left].
  - rewrite app_nil_r. reflexivity.
  - rewrite step_kept by exact Hk. unfold HTTPHeaders.add. rewrite Hn.
    rewrite add_norm_last by exact Hacc. rewrite IH, <- app_assoc. reflexivity.
Qed.

Lemma relay_loop_wf h : forall acc,
  HTTPHeaders.wf h = true ->
  (forall k, HTTPHeaders.has_key k h = true -> HTTPHeaders.has_key k acc = false) ->
  fold_left step (HTTPHeaders.get_all h) acc
  = acc ++ List.filter (fun kv => kept (fst kv)) h.
Proof.
  induction h as [|[k vs] h IH]; intros acc Hwf Hfresh.
  - cbn. rewrite app_nil_r. reflexivity.
  - cbn [HTTPHeaders.wf] in Hwf. apply andb_prop in Hwf as [Hwf Hrest].
    apply andb_prop in Hwf as [Hwf Hnodup]. apply andb_prop in Hwf as [Hn Hvs].
    apply String.eqb_eq in Hn. apply negb_true_iff in Hnodup.
    assert (Hkacc : HTTPHeaders.has_key k acc = false).
    { apply Hfresh. rewrite has_key_cons, String.eqb_refl. reflexivity. }
    assert (Hrest_fresh : forall k', HTTPHeaders.has_key k' h = true ->
                                     HTTPHeaders.has_key k' acc = false).
    { intros k' Hk'. apply Hfresh. rewrite has_key_cons, Hk'. apply orb_true_r. }
    cbn [HTTPHeaders.get_all List.filter fst]. rewrite fold_left_app.
    destruct (kept k) eqn:Hk.
    + destruct vs as [|v vs]; [discriminate|]. cbn [map fold_left].
      rewrite step_kept by exact Hk. unfold HTTPHeaders.add. rewrite Hn.
      rewrite add_norm_fresh by exact Hkacc.
      rewrite relay_loop_appends by assumption.
      rewrite IH.
      * rewrite <- app_assoc. reflexivity.
      * exact Hrest.
      * intros k' Hk'. rewrite has_key_app, (Hrest_fresh k' Hk'), has_key_cons.
        destruct (String.eqb_spec k k') as [->|_]; [congruence|reflexivity].
    + rewrite relay_loop_skips by exact Hk. apply IH; assumption.
Qed.

Lemma filter_pairs_of_name k vs :
  List.filter (fun hv : string * string => kept (fst hv)) (map (pair k) vs)
  = if kept k then map (pair k) vs else [].
Proof.
  induction vs as [|v vs IH]; cbn [map List.filter fst].
  - destruct (kept k); reflexivity.
  - rewrite IH. destruct (kept k); reflexivity.
Qed.

Lemma get_all_filter h :
  HTTPHeaders.get_all (List.filter (fun kv => kept (fst kv)) h)
  = List.filter (fun hv => kept (fst hv)) (HTTPHeaders.get_all h).
Proof.
  induction h as [|[k vs] h IH]; [reflexivity|].
  cbn [HTTPHeaders.get_all List.filter fst].
  rewrite List.filter_app, <- IH, filter_pairs_of_name.
  destruct (kept k); reflexivity.
Qed.

(** The loop of [proxy] over a well-formed header object, started from an
    empty one, leaves exactly the pairs whose name is not in the tuple, in
    their order. *)
Lemma relay_loop_get_all h :
  HTTPHeaders.wf h = true ->
  HTTPHeaders.get_all (fold_left step (HTTPHeaders.get_all h) HTTPHeaders.empty)
  = List.filter (fun hv => kept (fst hv)) (HTTPHeaders.get_all h).
Proof.
  intros Hwf. rewrite relay_loop_wf; [|exact Hwf|reflexivity].
  apply get_all_filter.
Qed.

End RelayLoop.

Lemma values_del_norm_ne k k' h :
  k <> k' -> HTTPHeaders.values k (HTTPHeaders.del_norm k' h) = HTTPHeaders.values k h.
Proof.
  intros Hne. induction h as [|[k0 vs] h IH]; simpl; [reflexivity|].
  destruct (String.eqb_spec k0 k') as [->|Hk0]; simpl.
  - destruct (String.eqb_spec k' k) as [->|_]; [contradiction|reflexivity].
  - rewrite IH. reflexivity.
Qed.

Lemma fetched_app a b : fetched (a ++ b) = fetched a ++ fetched b.
Proof.
  induction a as [|e a IH]; simpl; [reflexivity|].
  destruct e; simpl; rewrite IH; reflexivity.
Qed.

Lemma in_tuple_In x items : in_tuple x items = true <-> In x items.
Proof.
  unfold in_tuple. rewrite existsb_exists. split.
  - intros [y [Hy Heq]]. apply String.eqb_eq in Heq. subst. exact Hy.
  - intros H. exists x. split; [exact H|apply String.eqb_refl].
Qed.

(** The names a well-formed header object yields are normalised. *)
Lemma wf_get_all_normalized h k v :
  HTTPHeaders.wf h = true -> In (k, v) (HTTPHeaders.get_all h) ->
  HTTPHeaders.normalize k = k.
Proof.
  induction h as [|[k' vs] h IH]; cbn [HTTPHeaders.wf HTTPHeaders.get_all]; [contradiction|].
  intros Hwf Hin. apply andb_prop in Hwf as [Hwf Hrest].
  apply andb_prop in Hwf as [Hwf _]. apply andb_prop in Hwf as [Hn _].
  apply in_app_or in Hin as [Hin|Hin]; [|exact (IH Hrest Hin)].
  apply in_map_iff in Hin as [v' [[= <- _] _]]. apply String.eqb_eq, Hn.
Qed.

(** A normalised name that is one of the four framing headers up to case is
    one of them as the tuple of [proxy] spells them. *)
Lemma not_relayed_any_case k :
  HTTPHeaders.normalize k = k ->
  In (Text.lower k) (map Text.lower LocalProxyHandler.not_relayed) ->
  in_tuple k LocalProxyHandler.not_relayed = true.
Proof.
  intros Hn Hin. apply in_map_iff in Hin as [c [Hc Hin]].
  apply in_tuple_In. symmetry in Hc. apply normalize_same_lower in Hc.
  rewrite Hn in Hc. subst k.
  cbn in Hin. decompose [or] Hin; subst; cbn; tauto.
Qed.

(** ** More on the header dictionary *)

Lemma values_has_key k h :
  HTTPHeaders.values k h = None <-> HTTPHeaders.has_key k h = false.
Proof.
  induction h as [|[k' vs] h IH]; simpl; [tauto|].
  destruct (String.eqb k' k); simpl; [split; discriminate|exact IH].
Qed.

Lemma del_norm_absent k h :
  HTTPHeaders.has_key k h = false -> HTTPHeaders.del_norm k h = h.
Proof.
  induction h as [|[k' vs] h IH]; simpl; [reflexivity|].
  intros H. apply orb_false_elim in H as [Hk Hh]. rewrite Hk, (IH Hh). reflexivity.
Qed.

Lemma has_key_del_norm_same k h :
  HTTPHeaders.wf h = true -> HTTPHeaders.has_key k (HTTPHeaders.del_norm k h) = false.
Proof.
  induction h as [|[k' vs] h IH]; simpl; [reflexivity|].
  intros H. apply andb_prop in H as [H Hwf]. apply andb_prop in H as [_ Hk].
  apply negb_true_iff in Hk.
  destruct (String.eqb_spec k' k) as [->|Hne]; [exact Hk|].
  simpl. rewrite (IH Hwf).
  destruct (String.eqb_spec k' k) as [->|_]; [contradiction|reflexivity].
Qed.

(** [name in h] is a matter of the normalised name alone. *)
Lemma contains_has_key name h :
  HTTPHeaders.contains name h = HTTPHeaders.has_key (HTTPHeaders.normalize name) h.
Proof.
  unfold HTTPHeaders.contains, HTTPHeaders.getitem.
  destruct (HTTPHeaders.values (HTTPHeaders.normalize name) h) as [vs|] eqn:Hv.
  - destruct (HTTPHeaders.has_key _ h) eqn:Hk; [reflexivity|].
    apply values_has_key in Hk. congruence.
  - apply values_has_key in Hv. rewrite Hv. reflexivity.
Qed.

Lemma add_norm_values_more k vs acc : forall l,
  HTTPHeaders.has_key k acc = false ->
  fold_left (fun a kv => HTTPHeaders.add_norm (fst kv) (snd kv) a) (map (pair k) vs)
    (acc ++ [(k, l)])
  = acc ++ [(k, l ++ vs)].
Proof.
  induction vs as [|v vs IH]; intros l Hk; cbn [map fold_left fst snd].
  - rewrite app_nil_r. reflexivity.
  - rewrite add_norm_last by exact Hk. rewrite IH by exact Hk.
    rewrite <- app_assoc. reflexivity.
Qed.

Lemma add_norm_values_last k vs acc :
  HTTPHeaders.has_key k acc = false ->
  fold_left (fun a kv => HTTPHeaders.add_norm (fst kv) (snd kv) a) (map (pair k) vs) acc
  = match vs with [] => acc | _ :: _ => acc ++ [(k, vs)] end.
Proof.
  intros Hk. destruct vs as [|v vs]; [reflexivity|]. cbn [map fold_left fst snd].
  rewrite add_norm_fresh by exact Hk. apply add_norm_values_more, Hk.
Qed.

Lemma add_all_normalized pairs acc :
  Forall (fun kv => HTTPHeaders.normalize (fst kv) = fst kv) pairs ->
  HTTPHeaders.add_all pairs acc
  = fold_left (fun a kv => HTTPHeaders.add_norm (fst kv) (snd kv) a) pairs acc.
Proof.
  unfold HTTPHeaders.add_all. revert acc.
  induction pairs as [|kv pairs IH]; intros acc H; [reflexivity|].
  apply Forall_cons_iff in H as [Hkv H]. cbn [fold_left].
  unfold HTTPHeaders.add at 2. rewrite Hkv. apply IH, H.
Qed.

Lemma add_norm_all_get_all h : forall acc,
  HTTPHeaders.wf h = true ->
  (forall k, HTTPHeaders.has_key k h = true -> HTTPHeaders.has_key k acc = false) ->
  fold_left (fun a kv => HTTPHeaders.add_norm (fst kv) (snd kv) a)
    (HTTPHeaders.get_all h) acc
  = acc ++ h.
Proof.
  induction h as [|[k vs] h IH]; intros acc Hwf Hfresh.
  - cbn. rewrite app_nil_r. reflexivity.
  - cbn [HTTPHeaders.wf] in Hwf. apply andb_prop in Hwf as [Hwf Hrest].
    apply andb_prop in Hwf as [Hwf Hnodup]. apply andb_prop in Hwf as [_ Hvs].
    apply negb_true_iff in Hnodup.
    cbn [HTTPHeaders.get_all]. rewrite fold_left_app.
    rewrite add_norm_values_last
      by (apply Hfresh; rewrite has_key_cons, String.eqb_refl; reflexivity).
    destruct vs as [|v vs]; [discriminate|].
    rewrite IH.
    + rewrite <- app_assoc. reflexivity.
    + exact Hrest.
    + intros k' Hk'. rewrite has_key_app, has_key_cons.
      rewrite Hfresh by (rewrite has_key_cons, Hk'; apply orb_true_r).
      destruct (String.eqb_spec k k') as [->|_]; [congruence|reflexivity].
Qed.

(** Copying a well-formed header object gives an equal one. *)
Lemma copy_wf h : HTTPHeaders.wf h = true -> HTTPHeaders.copy h = h.
Proof.
  intros Hwf. unfold HTTPHeaders.copy, HTTPHeaders.of_pairs.
  rewrite add_all_normalized.
  - rewrite add_norm_all_get_all; [reflexivity|exact Hwf|reflexivity].
  - apply List.Forall_forall. intros [k v] Hin.
    exact (wf_get_all_normalized _ _ _ Hwf Hin).
Qed.

(** ** Strings *)

Lemma append_assoc (a b c : string) : (a +:+ b) +:+ c = a +:+ (b +:+ c).
Proof.
  induction a as [|x a IH]; [reflexivity|].
  change (String x ((a +:+ b) +:+ c) = String x (a +:+ (b +:+ c))).
  f_equal. exact IH.
Qed.

Lemma append_empty_r (a : string) : a +:+ EmptyString = a.
Proof.
  induction a as [|x a IH]; [reflexivity|].
  change (String x (a +:+ EmptyString) = String x a). f_equal. exact IH.
Qed.

(** ** [LocalProxyHandler.proxy], block by block *)

Section ProxySteps.

Variable join : list string -> string.
Variable fetch : HTTPRequest -> HTTPResponse.

(** Lines 257-258. *)
Let drop_proxy_connection (self : Handler) : Handler :=
  if HTTPHeaders.contains "Proxy-Connection" (headers (request self)) then
    with_request
      (mkServerRequest (method (request self)) (query (request self))
         (HTTPHeaders.delitem "Proxy-Connection" (headers (request self)))
         (body (request self)))
      self
  else self.

Let wants_websocket (req : HTTPServerRequest) : bool :=
  String.eqb (Text.lower (HTTPHeaders.get "Upgrade" EmptyString (headers req))) "websocket".

(** Lines 262-265. *)
Let flag_upgrade (self : Handler) : Handler :=
  if wants_websocket (request self) then
    set_status 500 None
      (emit (LogInfo "we wanna websocket, but we don't define WebSocketProxyHandler") self)
  else self.

(** The handler when [proxy] builds the outbound request. *)
Let prepared (self : Handler) : Handler :=
  flag_upgrade (emit Activity (drop_proxy_connection self)).

(** Lines 280-297. *)
Let relay (response : HTTPResponse) (self : Handler) : Handler :=
  match LocalProxyHandler.non_http_error response with
  | Some err => write (error_str err) (set_status 500 None self)
  | None =>
      let self :=
        LocalProxyHandler.relay_headers (HTTPHeaders.get_all (resp_headers response))
          (with_headers HTTPHeaders.empty
             (set_status (code response) (Some (reason response)) self)) in
      match resp_body response with
      | Some b => if Text.truthy b then write b self else self
      | None => self
      end
  end.

Lemma proxy_steps port path self :
  LocalProxyHandler.proxy join fetch port path self
  = match LocalProxyHandler._build_proxy_request join (prepared self) port path
            (LocalProxyHandler.request_body (request (prepared self))) with
    | Raises e => (prepared self, Raises e)
    | Returns req =>
        (relay (fetch req) (emit Activity (emit (Fetch req) (prepared self))), Returns tt)
    end.
Proof.
  unfold LocalProxyHandler.proxy, prepared, flag_upgrade, drop_proxy_connection,
    wants_websocket, relay, LocalProxyHandler._record_activity,
    bind, gets, modify, when, outcome, ret, id.
  destruct self as [bu pb rw nm rq sc rs hs wb w st evs].
  cbn [request headers method query body with_request emit set_status with_status
       base_url proxy_base rewrite name _status_code _reason _headers _write_buffer
       ws state events].
  destruct (HTTPHeaders.contains "Proxy-Connection" (headers rq));
    cbn [request headers method query body with_request emit set_status with_status
         base_url proxy_base rewrite name _status_code _reason _headers _write_buffer
         ws state events].
  all: match goal with
       | |- context [String.eqb (Text.lower ?u) "websocket"] =>
           destruct (String.eqb (Text.lower u) "websocket")
       end;
    cbn [request headers method query body with_request emit set_status with_status
         base_url proxy_base rewrite name _status_code _reason _headers _write_buffer
         ws state events].
  all: match goal with
       | |- context [LocalProxyHandler._build_proxy_request ?j ?s ?p ?q ?b] =>
           destruct (LocalProxyHandler._build_proxy_request j s p q b) as [req|e]
       end; [|reflexivity].
  all: destruct (LocalProxyHandler.non_http_error (fetch req)); [reflexivity|].
  all: destruct (resp_body (fetch req)) as [b|]; [|reflexivity].
  all: destruct (Text.truthy b); reflexivity.
Qed.

Lemma wants_websocket_drop self :
  wants_websocket (request (drop_proxy_connection self)) = wants_websocket (request self).
Proof.
  unfold drop_proxy_connection, wants_websocket.
  destruct (HTTPHeaders.contains "Proxy-Connection" (headers (request self)));
    [|reflexivity].
  destruct self as [bu pb rw nm rq sc rs hs wb w st evs]; cbn [request with_request headers].
  unfold HTTPHeaders.get, HTTPHeaders.getitem, HTTPHeaders.delitem.
  rewrite values_del_norm_ne by discriminate. reflexivity.
Qed.

Lemma prepared_request_body self :
  LocalProxyHandler.request_body (request (prepared self))
  = LocalProxyHandler.request_body (request self).
Proof.
  unfold prepared, flag_upgrade, drop_proxy_connection.
  destruct self as [bu pb rw nm rq sc rs hs wb w st evs].
  cbn [request headers with_request emit].
  destruct (HTTPHeaders.contains "Proxy-Connection" (headers rq));
    cbn [request headers with_request emit];
    match goal with |- context [if ?c then _ else _] => destruct c end; reflexivity.
Qed.

Lemma prepared_events self :
  events (prepared self)
  = events self ++ Activity ::
      (if wants_websocket (request self)
       then [LogInfo "we wanna websocket, but we don't define WebSocketProxyHandler";
             SetStatus 500]
       else []).
Proof.
  unfold prepared, flag_upgrade.
  replace (wants_websocket (request (emit Activity (drop_proxy_connection self))))
    with (wants_websocket (request self)).
  2:{ rewrite <- wants_websocket_drop. destruct (drop_proxy_connection self); reflexivity. }
  assert (He : events (drop_proxy_connection self) = events self).
  { unfold drop_proxy_connection.
    destruct (HTTPHeaders.contains _ _); destruct self; reflexivity. }
  destruct (wants_websocket (request self)).
  - destruct (drop_proxy_connection self); cbn in *. rewrite He, <- !app_assoc. reflexivity.
  - destruct (drop_proxy_connection self); cbn in *. rewrite He. reflexivity.
Qed.

Lemma prepared_write_buffer self : _write_buffer (prepared self) = _write_buffer self.
Proof.
  unfold prepared, flag_upgrade, drop_proxy_connection.
  destruct (HTTPHeaders.contains _ _);
    match goal with |- context [if ?c then _ else _] => destruct c end;
    destruct self; reflexivity.
Qed.

(** What the last block of [proxy] leaves in the handler. *)
Lemma relay_fields response self :
  let self' := relay response self in
  match LocalProxyHandler.non_http_error response with
  | Some err =>
      _status_code self' = 500 /\ _reason self' = StandardReason 500 /\
      _headers self' = _headers self /\
      _write_buffer self' = _write_buffer self ++ [error_str err] /\
      events self' = events self ++ [SetStatus 500]
  | None =>
      _status_code self' = code response /\
      _reason self' = GivenReason (reason response) /\
      _headers self'
      = fold_left
          (fun h hv =>
             if negb (in_tuple (fst hv) LocalProxyHandler.not_relayed)
             then HTTPHeaders.add (fst hv) (snd hv) h else h)
          (HTTPHeaders.get_all (resp_headers response)) HTTPHeaders.empty /\
      _write_buffer self'
      = _write_buffer self ++
          match resp_body response with
          | Some b => if Text.truthy b then [b] else []
          | None => []
          end /\
      events self' = events self ++ [SetStatus (code response)]
  end.
Proof.
  unfold relay. destruct (LocalProxyHandler.non_http_error response) as [err|].
  - destruct self; cbn. repeat split; reflexivity.
  - cbn zeta. rewrite relay_headers_fold.
    destruct (resp_body response) as [b|]; [destruct (Text.truthy b)|];
      destruct self; cbn; rewrite ?app_nil_r; repeat split; reflexivity.
Qed.

Lemma proxy_returns port path self self' :
  LocalProxyHandler.proxy join fetch port path self = (self', Returns tt) ->
  exists req,
    LocalProxyHandler._build_proxy_request join (prepared self) port path
      (LocalProxyHandler.request_body (request self)) = Returns req /\
    self' = relay (fetch req) (emit Activity (emit (Fetch req) (prepared self))).
Proof.
  rewrite proxy_steps, prepared_request_body.
  destruct (LocalProxyHandler._build_proxy_request _ _ _ _ _) as [req|e]; [|discriminate].
  intros [= <-]. exists req. split; reflexivity.
Qed.

Lemma events_emit e self : events (emit e self) = events self ++ [e].
Proof. destruct self; reflexivity. Qed.

Lemma write_buffer_emit e self : _write_buffer (emit e self) = _write_buffer self.
Proof. destruct self; reflexivity. Qed.

Lemma relay_events response self :
  events (relay response self) = events self ++ [SetStatus (_status_code (relay response self))].
Proof.
  pose proof (relay_fields response self) as H. cbn zeta in H.
  destruct (LocalProxyHandler.non_http_error response);
    decompose [and] H; congruence.
Qed.

Lemma proxy_fetched self self' req :
  self' = relay (fetch req) (emit Activity (emit (Fetch req) (prepared self))) ->
  fetched (events self') = fetched (events self) ++ [req].
Proof.
  intros ->. rewrite relay_events, !events_emit, prepared_events, !fetched_app.
  destruct (wants_websocket (request self)); cbn; rewrite ?app_nil_r; reflexivity.
Qed.

Lemma build_proxy_request_body self port path b req :
  LocalProxyHandler._build_proxy_request join self port path b = Returns req ->
  req_body req = b.
Proof.
  unfold LocalProxyHandler._build_proxy_request.
  destruct (LocalProxyHandler._get_context_path join self port); [|discriminate].
  intros [= <-]. reflexivity.
Qed.

(** ** The properties of [LocalProxyHandler.proxy] *)

(** C4. For every request that [proxy] forwards: when the fetch ends in an
    error that is not an [httpclient.HTTPError], the response has status 500
    and its body is the text of the error; when the backend answered, with
    whatever status (no error, or an [HTTPError] carrying the backend's
    status), the response has the backend's status code and reason phrase. *)
Theorem proxy_error_policy port path self self' :
  LocalProxyHandler.proxy join fetch port path self = (self', Returns tt) ->
  exists req,
    fetched (events self') = fetched (events self) ++ [req] /\
    (forall err,
       error (fetch req) = Some err -> is_HTTPError err = false ->
       _status_code self' = 500 /\
       _write_buffer self' = _write_buffer self ++ [error_str err]) /\
    ((error (fetch req) = None \/
      exists err, error (fetch req) = Some err /\ is_HTTPError err = true) ->
     _status_code self' = code (fetch req) /\
     _reason self' = GivenReason (reason (fetch req))).
Proof.
  intros H. apply proxy_returns in H as [req [_ Hself]]. exists req.
  split; [exact (proxy_fetched _ _ _ Hself)|].
  pose proof (relay_fields (fetch req) (emit Activity (emit (Fetch req) (prepared self))))
    as F.
  cbn zeta in F. rewrite <- Hself in F.
  rewrite !write_buffer_emit, prepared_write_buffer in F.
  unfold LocalProxyHandler.non_http_error in F. split.
  - intros err He Ht. rewrite He, Ht in F. cbn in F. tauto.
  - intros [He|[err [He Ht]]]; rewrite He in F; [|rewrite Ht in F]; cbn in F; tauto.
Qed.

Lemma relayed_response_no_error response :
  error response = None \/
  (exists err, error response = Some err /\ is_HTTPError err = true) ->
  LocalProxyHandler.non_http_error response = None.
Proof.
  unfold LocalProxyHandler.non_http_error.
  intros [->|[err [-> ->]]]; reflexivity.
Qed.

(** For a normalised name, the test of the loop in [proxy] is the test of
    the lower-case name against the four framing headers. *)
Lemma framing_test k :
  HTTPHeaders.normalize k = k ->
  in_tuple k LocalProxyHandler.not_relayed
  = in_tuple (Text.lower k)
      ["content-length"; "transfer-encoding"; "content-encoding"; "connection"].
Proof.
  intros Hn.
  destruct (in_tuple (Text.lower k)
              ["content-length"; "transfer-encoding"; "content-encoding"; "connection"])
    eqn:Hl.
  - apply not_relayed_any_case; [exact Hn|]. apply in_tuple_In in Hl. exact Hl.
  - destruct (in_tuple k LocalProxyHandler.not_relayed) eqn:Hk; [|reflexivity].
    apply in_tuple_In in Hk.
    assert (Hin : In (Text.lower k) (map Text.lower LocalProxyHandler.not_relayed))
      by (apply in_map, Hk).
    apply in_tuple_In in Hin. cbn [map] in Hin.
    change (map Text.lower LocalProxyHandler.not_relayed)
      with ["content-length"; "transfer-encoding"; "content-encoding"; "connection"]
      in Hin.
    congruence.
Qed.

(** C7. For every response of the backend that [proxy] relays (the fetch
    gave no error, or an [HTTPError], which carries the backend's status),
    the header object of the backend's response being well formed: the
    relayed headers are the backend's, in their order and with their
    repetitions, without those whose name is, in any case of letters,
    content-length, transfer-encoding, content-encoding or connection; so no
    relayed header bears one of these four names and every other header of
    the backend is relayed. *)
Theorem relayed_headers_drop_framing port path self self' :
  LocalProxyHandler.proxy join fetch port path self = (self', Returns tt) ->
  exists req,
    fetched (events self') = fetched (events self) ++ [req] /\
    (error (fetch req) = None \/
     (exists err, error (fetch req) = Some err /\ is_HTTPError err = true) ->
     HTTPHeaders.wf (resp_headers (fetch req)) = true ->
     let framing :=
       ["content-length"; "transfer-encoding"; "content-encoding"; "connection"] in
     let backend := HTTPHeaders.get_all (resp_headers (fetch req)) in
     let relayed := HTTPHeaders.get_all (_headers self') in
     relayed
     = List.filter (fun hv => negb (in_tuple (Text.lower (fst hv)) framing)) backend /\
     (forall k v, In (k, v) relayed -> ~ In (Text.lower k) framing) /\
     (forall k v, In (k, v) backend -> ~ In (Text.lower k) framing -> In (k, v) relayed)).
Proof.
  intros H. apply proxy_returns in H as [req [_ Hself]]. exists req.
  split; [exact (proxy_fetched _ _ _ Hself)|].
  intros Herr Hwf framing backend relayed.
  pose proof (relayed_response_no_error _ Herr) as Hnone.
  pose proof (relay_fields (fetch req) (emit Activity (emit (Fetch req) (prepared self))))
    as F.
  cbn zeta in F. rewrite <- Hself, Hnone in F. destruct F as (_ & _ & Fh & _).
  assert (Hrel : relayed
    = List.filter (fun hv => negb (in_tuple (Text.lower (fst hv)) framing)) backend).
  { unfold relayed, backend. rewrite Fh, (relay_loop_get_all _ Hwf).
    apply List.filter_ext_in. intros [k v] Hin. cbn [fst].
    rewrite (framing_test k (wf_get_all_normalized _ _ _ Hwf Hin)). reflexivity. }
  split; [exact Hrel|]. split.
  - intros k v Hin Hcase. rewrite Hrel in Hin. apply List.filter_In in Hin as [_ Hk].
    cbn [fst] in Hk. apply negb_true_iff in Hk. apply in_tuple_In in Hcase. congruence.
  - intros k v Hin Hcase. rewrite Hrel. apply List.filter_In. split; [exact Hin|].
    cbn [fst]. apply negb_true_iff.
    destruct (in_tuple (Text.lower k) framing) eqn:Hk; [|reflexivity].
    exfalso. apply Hcase, in_tuple_In, Hk.
Qed.

(** C9, as amended. For every request that [proxy] forwards and whose body
    is empty, the body of the outbound request is the empty byte sequence
    when the method is POST and is absent for every other method. *)
Theorem empty_body_follows_method port path self self' :
  body (request self) = EmptyString ->
  LocalProxyHandler.proxy join fetch port path self = (self', Returns tt) ->
  exists req,
    fetched (events self') = fetched (events self) ++ [req] /\
    req_body req
    = if String.eqb (method (request self)) "POST" then Some EmptyString else None.
Proof.
  intros Hb H. apply proxy_returns in H as [req [Hreq Hself]]. exists req.
  split; [exact (proxy_fetched _ _ _ Hself)|].
  rewrite (build_proxy_request_body _ _ _ _ _ Hreq).
  unfold LocalProxyHandler.request_body. rewrite Hb. reflexivity.
Qed.

Lemma prepared_context_path self port :
  LocalProxyHandler._get_context_path join (prepared self) port
  = LocalProxyHandler._get_context_path join self port.
Proof.
  unfold prepared, flag_upgrade, drop_proxy_connection.
  destruct (HTTPHeaders.contains _ _);
    match goal with |- context [if ?c then _ else _] => destruct c end;
    destruct self; reflexivity.
Qed.

(** C6, as amended. When the rewrite mode is neither ['/'] (passthrough) nor
    the empty string (absolute) and no proxy base is configured, building the
    outbound request fails with [ValueError('Unsupported rewrite: "<mode>"')]:
    [proxy] raises it while serving the request, and forwards nothing. *)
Theorem unsupported_rewrite_without_proxy_base port path body self :
  rewrite self <> "/" ->
  rewrite self <> EmptyString ->
  proxy_base self = EmptyString ->
  let failure :=
    ValueError ("Unsupported rewrite: " +:+ dquote +:+ rewrite self +:+ dquote) in
  LocalProxyHandler._build_proxy_request join self port path body = Raises failure /\
  snd (LocalProxyHandler.proxy join fetch port path self) = Raises failure /\
  fetched (events (fst (LocalProxyHandler.proxy join fetch port path self)))
  = fetched (events self).
Proof.
  intros Hpass Habs Hbase failure.
  assert (Hctx : LocalProxyHandler._get_context_path join self port = Raises failure).
  { unfold LocalProxyHandler._get_context_path. rewrite Hbase. cbn [Text.truthy].
    unfold in_tuple. cbn [existsb].
    destruct (String.eqb_spec (rewrite self) "/") as [E|_]; [contradiction|].
    destruct (String.eqb_spec (rewrite self) EmptyString) as [E|_]; [contradiction|].
    reflexivity. }
  split.
  { unfold LocalProxyHandler._build_proxy_request. rewrite Hctx. reflexivity. }
  rewrite proxy_steps. unfold LocalProxyHandler._build_proxy_request.
  rewrite prepared_context_path, Hctx. cbn [fst snd]. split; [reflexivity|].
  rewrite prepared_events, fetched_app.
  destruct (wants_websocket (request self)); cbn; rewrite app_nil_r; reflexivity.
Qed.

(** ** More properties of [LocalProxyHandler.proxy] *)

Lemma prepared_request self :
  request (prepared self)
  = mkServerRequest (method (request self)) (query (request self))
      (HTTPHeaders.delitem "Proxy-Connection" (headers (request self)))
      (body (request self)).
Proof.
  unfold prepared, flag_upgrade, drop_proxy_connection.
  destruct (HTTPHeaders.contains "Proxy-Connection" (headers (request self))) eqn:Hc.
  - match goal with |- context [if ?c then _ else _] => destruct c end;
      destruct self; reflexivity.
  - rewrite contains_has_key in Hc. unfold HTTPHeaders.delitem.
    rewrite (del_norm_absent _ _ Hc).
    match goal with |- context [if ?c then _ else _] => destruct c end;
      destruct self as [? ? ? ? [? ? ? ?] ? ? ? ? ? ? ?]; reflexivity.
Qed.

Lemma prepared_rewrite self : rewrite (prepared self) = rewrite self.
Proof.
  unfold prepared, flag_upgrade, drop_proxy_connection.
  destruct (HTTPHeaders.contains _ _);
    match goal with |- context [if ?c then _ else _] => destruct c end;
    destruct self; reflexivity.
Qed.

Lemma prepared_headers self : _headers (prepared self) = _headers self.
Proof.
  unfold prepared, flag_upgrade, drop_proxy_connection.
  destruct (HTTPHeaders.contains _ _);
    match goal with |- context [if ?c then _ else _] => destruct c end;
    destruct self; reflexivity.
Qed.

Lemma relay_request response self : request (relay response self) = request self.
Proof.
  unfold relay. destruct (LocalProxyHandler.non_http_error response).
  - destruct self; reflexivity.
  - cbn zeta. rewrite relay_headers_fold.
    destruct (resp_body response) as [b|]; [destruct (Text.truthy b)|];
      destruct self; reflexivity.
Qed.

Lemma request_emit e self : request (emit e self) = request self.
Proof. destruct self; reflexivity. Qed.

Lemma headers_emit e self : _headers (emit e self) = _headers self.
Proof. destruct self; reflexivity. Qed.

(** The request that [proxy] sends, read off the handler it was called on. *)
Lemma proxy_outbound port path self self' :
  LocalProxyHandler.proxy join fetch port path self = (self', Returns tt) ->
  let inbound := HTTPHeaders.delitem "Proxy-Connection" (headers (request self)) in
  exists req context_path,
    fetched (events self') = fetched (events self) ++ [req] /\
    LocalProxyHandler._get_context_path join self port = Returns context_path /\
    headers (request self') = inbound /\
    req = mkHTTPRequest
            (let client_path :=
               if Text.truthy (rewrite self) then path
               else join [context_path; path] in
             let client_uri := "http://localhost" +:+ ":" +:+ str_port port +:+ client_path in
             if Text.truthy (query (request self))
             then client_uri +:+ "?" +:+ query (request self)
             else client_uri)
            (method (request self))
            (LocalProxyHandler.request_body (request self))
            (if Text.truthy (rewrite self)
             then HTTPHeaders.setitem "X-ProxyContextPath" context_path
                    (HTTPHeaders.setitem "X-Forwarded-Context" context_path
                       (HTTPHeaders.copy inbound))
             else HTTPHeaders.copy inbound)
            false.
Proof.
  intros H inbound. apply proxy_returns in H as [req [Hreq Hself]].
  unfold LocalProxyHandler._build_proxy_request in Hreq.
  rewrite prepared_context_path, prepared_rewrite in Hreq.
  destruct (LocalProxyHandler._get_context_path join self port) as [cp|e] eqn:Hcp;
    [|discriminate].
  exists req, cp. split; [exact (proxy_fetched _ _ _ Hself)|]. split; [reflexivity|].
  split.
  { rewrite Hself, relay_request, !request_emit, prepared_request. reflexivity. }
  injection Hreq as <-. unfold LocalProxyHandler.proxy_request_headers.
  rewrite prepared_request. reflexivity.
Qed.

(** X3. What a forwarded request leaves in the events: activity is recorded
    once before the fetch and once after it, one request is fetched, and the
    status is set last; the log line and the provisional status 500 come in
    between only for a request with [Upgrade: websocket], so never for a GET
    that [WebSocketHandlerMixin.get] sent to [http_get]. *)
Theorem proxy_trace port path self self' :
  LocalProxyHandler.proxy join fetch port path self = (self', Returns tt) ->
  exists req,
    events self'
    = events self ++
        Activity ::
        (if String.eqb
              (Text.lower (HTTPHeaders.get "Upgrade" EmptyString (headers (request self))))
              "websocket"
         then [LogInfo "we wanna websocket, but we don't define WebSocketProxyHandler";
               SetStatus 500]
         else []) ++
        [Fetch req; Activity; SetStatus (_status_code self')] /\
    activities (events self') = (activities (events self) + 2)%nat /\
    (WebSocketHandlerMixin.get (request self) = WebSocketHandlerMixin.ViaHttpGet ->
     events self'
     = events self ++ [Activity; Fetch req; Activity; SetStatus (_status_code self')]).
Proof.
  intros H. apply proxy_returns in H as [req [_ Hself]]. exists req.
  assert (Hev : events self'
    = events self ++
        Activity ::
        (if wants_websocket (request self)
         then [LogInfo "we wanna websocket, but we don't define WebSocketProxyHandler";
               SetStatus 500]
         else []) ++
        [Fetch req; Activity; SetStatus (_status_code self')]).
  { rewrite Hself at 1. rewrite relay_events, <- Hself, !events_emit, prepared_events.
    rewrite <- !app_assoc. reflexivity. }
  split; [exact Hev|]. split.
  - rewrite Hev. unfold activities. rewrite List.filter_app, length_app.
    destruct (wants_websocket (request self)); cbn; lia.
  - unfold WebSocketHandlerMixin.get. intros Hget. rewrite Hev. unfold wants_websocket.
    destruct (String.eqb _ "websocket"); [discriminate|reflexivity].
Qed.

(** X4. Of the body and the headers of the response: a relayed response
    replaces the handler's headers and writes the backend's body as it is
    when that is not empty, and writes nothing otherwise; a fetch that ended
    in an error which is not an [HTTPError] leaves the handler's headers as
    they were and gives the standard reason of status 500. *)
Theorem response_body_and_headers port path self self' :
  LocalProxyHandler.proxy join fetch port path self = (self', Returns tt) ->
  exists req,
    fetched (events self') = fetched (events self) ++ [req] /\
    (LocalProxyHandler.non_http_error (fetch req) = None ->
     _write_buffer self'
     = _write_buffer self ++
         match resp_body (fetch req) with
         | Some b => if Text.truthy b then [b] else []
         | None => []
         end) /\
    (forall err,
       LocalProxyHandler.non_http_error (fetch req) = Some err ->
       _headers self' = _headers self /\ _reason self' = StandardReason 500).
Proof.
  intros H. apply proxy_returns in H as [req [_ Hself]]. exists req.
  split; [exact (proxy_fetched _ _ _ Hself)|].
  pose proof (relay_fields (fetch req) (emit Activity (emit (Fetch req) (prepared self))))
    as F.
  cbn zeta in F. rewrite <- Hself in F.
  rewrite !write_buffer_emit, prepared_write_buffer, !headers_emit, prepared_headers in F.
  split.
  - intros Hnone. rewrite Hnone in F. tauto.
  - intros err Herr. rewrite Herr in F. tauto.
Qed.


End ProxySteps.

Lemma proxy_error_policy_witness :
  LocalProxyHandler.proxy url_path_join backend_unreachable (PortText "9000") "/foo"
    sample_handler = (sample_reply_unreachable, Returns tt) /\
  exists req,
    fetched (events sample_reply_unreachable) = fetched (events sample_handler) ++ [req] /\
    (forall err,
       error (backend_unreachable req) = Some err -> is_HTTPError err = false ->
       _status_code sample_reply_unreachable = 500 /\
       _write_buffer sample_reply_unreachable
       = _write_buffer sample_handler ++ [error_str err]) /\
    ((error (backend_unreachable req) = None \/
      exists err, error (backend_unreachable req) = Some err /\ is_HTTPError err = true) ->
     _status_code sample_reply_unreachable = code (backend_unreachable req) /\
     _reason sample_reply_unreachable = GivenReason (reason (backend_unreachable req))).
Proof.
  split; [vm_compute; reflexivity|].
  apply (proxy_error_policy url_path_join backend_unreachable (PortText "9000") "/foo"
           sample_handler sample_reply_unreachable).
  vm_compute; reflexivity.
Defined.

Lemma relayed_headers_drop_framing_witness :
  LocalProxyHandler.proxy url_path_join backend_not_found (PortText "9000") "/foo"
    sample_handler = (sample_reply_not_found, Returns tt) /\
  (forall req,
     (exists err, error (backend_not_found req) = Some err /\ is_HTTPError err = true) /\
     HTTPHeaders.wf (resp_headers (backend_not_found req)) = true /\
     HTTPHeaders.get_all (resp_headers (backend_not_found req))
     = [("Content-Length", "9"); ("Set-Cookie", "a=1"); ("Set-Cookie", "b=2");
        ("X-Served-By", "backend"); ("Connection", "close")]) /\
  HTTPHeaders.get_all (_headers sample_reply_not_found)
  = [("Set-Cookie", "a=1"); ("Set-Cookie", "b=2"); ("X-Served-By", "backend")] /\
  (forall k v,
     In (k, v) (HTTPHeaders.get_all (_headers sample_reply_not_found)) ->
     ~ In (Text.lower k)
         ["content-length"; "transfer-encoding"; "content-encoding"; "connection"]).
Proof.
  split; [vm_compute; reflexivity|].
  split.
  { intros req. split; [eexists; split; reflexivity|]. split; vm_compute; reflexivity. }
  destruct (relayed_headers_drop_framing url_path_join backend_not_found (PortText "9000")
              "/foo" sample_handler sample_reply_not_found) as (req & _ & H);
    [vm_compute; reflexivity|].
  destruct H as (Hrel & Hnone & _).
  - right. eexists. split; reflexivity.
  - vm_compute. reflexivity.
  - split; [|exact Hnone]. rewrite Hrel. vm_compute. reflexivity.
Defined.

Lemma empty_body_follows_method_witness :
  (body (request sample_handler) = EmptyString /\
   LocalProxyHandler.proxy url_path_join backend_not_found (PortText "9000") "/foo"
     sample_handler = (sample_reply_not_found, Returns tt)) /\
  exists req,
    fetched (events sample_reply_not_found) = fetched (events sample_handler) ++ [req] /\
    req_body req
    = if String.eqb (method (request sample_handler)) "POST"
      then Some EmptyString else None.
Proof.
  split; [split; vm_compute; reflexivity|].
  apply (empty_body_follows_method url_path_join backend_not_found (PortText "9000")
           "/foo" sample_handler sample_reply_not_found); vm_compute; reflexivity.
Defined.


(** The sample request, answered 404 by the backend: the caller gets the 404,
    not the 500 set on the way. *)
Example upgrade_sample_status :
  _status_code sample_reply_not_found = 404 /\
  HTTPHeaders.get_all (_headers sample_reply_not_found)
  = [("Set-Cookie", "a=1"); ("Set-Cookie", "b=2"); ("X-Served-By", "backend")].
Proof. split; vm_compute; reflexivity. Qed.

(** C9, the claim as the design document words it, refuted: a GET is a
    bodiless method, and with an empty inbound body its outbound body is
    absent, not the empty byte sequence; a POST carries a body, and its
    outbound body is the empty byte sequence, not absent. *)
Lemma empty_body_not_as_documented :
  ~ (forall req : HTTPServerRequest,
       body req = EmptyString ->
       LocalProxyHandler.request_body req = documented_empty_body (method req)).
Proof.
  intros H.
  specialize (H (mkServerRequest "GET" EmptyString HTTPHeaders.empty EmptyString) eq_refl).
  vm_compute in H. discriminate H.
Qed.

(** ** [SuperviseAndProxyHandler.ensure_process], path by path *)

Import SuperviseAndProxyHandler.

Lemma get_env_union env : get_env ∪ env = env.
Proof. unfold get_env. apply (left_id_L ∅ (∪)). Qed.

Lemma state_emit e self : state (emit e self) = state self.
Proof. destruct self; reflexivity. Qed.

Lemma events_set_proc p self : events (set_proc p self) = events self.
Proof. destruct self; reflexivity. Qed.

Lemma events_del_proc self : events (del_proc self) = events self.
Proof. destruct self; reflexivity. Qed.

Lemma events_initialize st self : events (initialize st self) = events self.
Proof. destruct self; reflexivity. Qed.

Lemma proc_set_proc p self : proc (state (set_proc p self)) = Some p.
Proof. destruct self; reflexivity. Qed.

Lemma proc_del_proc self : proc (state (del_proc self)) = None.
Proof. destruct self; reflexivity. Qed.

Lemma proc_initialize self : proc (state (initialize (state self) self)) = proc (state self).
Proof. destruct self as [? ? ? ? ? ? ? ? ? ? [[] ? ?] ?]; reflexivity. Qed.

Lemma proc_lock_initialize self :
  proc_lock (state (initialize (state self) self)) = Some tt.
Proof. destruct self as [? ? ? ? ? ? ? ? ? ? [[[]|] ? ?] ?]; reflexivity. Qed.

Lemma initialize_locked self :
  proc_lock (state self) <> None -> initialize (state self) self = self.
Proof.
  destruct self as [? ? ? ? ? ? ? ? ? ? [[[]|] ? ?] ?]; [reflexivity|].
  intros H. contradiction H. reflexivity.
Qed.

Lemma spawns_app a b : spawns (a ++ b) = (spawns a + spawns b)%nat.
Proof. unfold spawns. rewrite List.filter_app, length_app. reflexivity. Qed.

Create Rewrite HintDb handler_fields.
#[local] Hint Rewrite events_emit state_emit events_set_proc events_del_proc
  events_initialize proc_set_proc proc_del_proc proc_initialize spawns_app
  : handler_fields.

(** Every way through [ensure_process], with the handler it leaves and its
    result. *)
Lemma ensure_process_paths w self :
  proc_lock (state self) <> None ->
  ensure_process w self
  = match proc (state self) with
    | Some _ => (emit LockReleased (emit LockAcquired self), Returns tt)
    | None =>
        match get_cmd_result w with
        | Raises e => (emit LockReleased (emit LockAcquired self), Raises e)
        | Returns cmd =>
            let p := mkSupervisedProcess (name self) cmd (os_environ w) 5 in
            let started := emit (ProcStart p) (set_proc p (emit LockAcquired self)) in
            match start_result w with
            | Raises e => (emit LockReleased (del_proc started), Raises e)
            | Returns _ =>
                let awaited := emit (ProcReady p) started in
                match ready_result w with
                | Raises e => (emit LockReleased (del_proc awaited), Raises e)
                | Returns true => (emit LockReleased awaited, Returns tt)
                | Returns false =>
                    (emit LockReleased (del_proc (emit (ProcKill p) awaited)),
                     Raises
                       match kill_result w with
                       | Raises e => e
                       | Returns _ =>
                           HTTPError 500 ("could not start " +:+ name self +:+ " in time")
                       end)
                end
            end
        end
    end.
Proof.
  intros Hlock. unfold ensure_process.
  unfold with_lock, try_except_reraise, bind, gets, modify, outcome, ret, raise, when.
  rewrite get_env_union. unfold get_timeout.
  destruct self as [bu pb rw nm rq sc rs hs wb ws0 [lk pt pr] evs].
  destruct w as [gc env sr rr kr].
  cbn [state proc_lock proc name emit get_cmd_result os_environ start_result
       ready_result kill_result] in *.
  destruct lk as [[]|]; [|contradiction Hlock; reflexivity].
  destruct pr as [p|]; [reflexivity|].
  destruct gc as [cmd|e]; [|reflexivity].
  destruct sr as [[]|e]; [|reflexivity].
  destruct rr as [[|]|e]; [reflexivity| |reflexivity].
  destruct kr as [[]|e]; reflexivity.
Qed.

Lemma request_ensure_process_paths w self :
  request_ensure_process w self
  = ensure_process w (initialize (state self) self) /\
  proc_lock (state (initialize (state self) self)) <> None.
Proof. split; [reflexivity|]. rewrite proc_lock_initialize. discriminate. Qed.

(** A call that finds a process in the record takes and releases the lock,
    and does nothing else. *)
Lemma request_with_process w self p :
  proc (state self) = Some p ->
  request_ensure_process w self
  = (emit LockReleased (emit LockAcquired (initialize (state self) self)), Returns tt).
Proof.
  intros Hp. destruct (request_ensure_process_paths w self) as [-> Hlock].
  rewrite (ensure_process_paths _ _ Hlock), proc_initialize, Hp. reflexivity.
Qed.

(** A call that finds no process and gets a command starts exactly one. *)
Lemma request_without_process_spawns w self cmd :
  proc (state self) = None -> get_cmd_result w = Returns cmd ->
  spawns (events (fst (request_ensure_process w self))) = S (spawns (events self)).
Proof.
  intros Hp Hcmd. destruct (request_ensure_process_paths w self) as [-> Hlock].
  rewrite (ensure_process_paths _ _ Hlock), proc_initialize, Hp, Hcmd. cbn zeta.
  destruct (start_result w) as [[]|e]; [destruct (ready_result w) as [[|]|e]|];
    cbn [fst]; autorewrite with handler_fields; cbn; lia.
Qed.

(** No call starts more than one process. *)
Lemma request_spawns_at_most_once w self :
  (spawns (events (fst (request_ensure_process w self))) <= S (spawns (events self)))%nat.
Proof.
  destruct (request_ensure_process_paths w self) as [-> Hlock].
  rewrite (ensure_process_paths _ _ Hlock), proc_initialize.
  destruct (proc (state self)) as [p|];
    [|destruct (get_cmd_result w) as [cmd|e];
      [destruct (start_result w) as [[]|e]; [destruct (ready_result w) as [[|]|e]|]|]];
    cbn [fst]; autorewrite with handler_fields; cbn; lia.
Qed.

(** After a call that returns, the record holds a process. *)
Lemma request_success_has_process w self self' :
  request_ensure_process w self = (self', Returns tt) -> proc (state self') <> None.
Proof.
  destruct (request_ensure_process_paths w self) as [-> Hlock].
  rewrite (ensure_process_paths _ _ Hlock), proc_initialize.
  destruct (proc (state self)) as [p|] eqn:Hp.
  - intros [= <-]. autorewrite with handler_fields. rewrite Hp. discriminate.
  - destruct (get_cmd_result w) as [cmd|e]; [|discriminate]. cbn zeta.
    destruct (start_result w) as [[]|e]; [|discriminate].
    destruct (ready_result w) as [[|]|e]; try discriminate.
    intros [= <-]. autorewrite with handler_fields. discriminate.
Qed.

(** ** The properties of [ensure_process] *)

(** C1. However a call of [ensure_process] fails (the command cannot be
    had, [start] raises, [ready] raises, the process is not ready in time,
    [kill] raises), ['proc'] is not in the state when the exception leaves
    it; and the next call that gets a command starts a process anew. *)
Theorem failed_start_leaves_no_process w self self' e :
  request_ensure_process w self = (self', Raises e) ->
  proc (state self') = None /\
  forall w' cmd,
    get_cmd_result w' = Returns cmd ->
    spawns (events (fst (request_ensure_process w' self'))) = S (spawns (events self')).
Proof.
  intros H.
  assert (Hnone : proc (state self') = None).
  { revert H. destruct (request_ensure_process_paths w self) as [-> Hlock].
    rewrite (ensure_process_paths _ _ Hlock), proc_initialize.
    destruct (proc (state self)) as [p|] eqn:Hp; [discriminate|].
    destruct (get_cmd_result w) as [cmd|e0].
    - cbn zeta. destruct (start_result w) as [[]|e1];
        [destruct (ready_result w) as [[|]|e1]|]; try discriminate;
        intros [= <- _]; autorewrite with handler_fields; reflexivity.
    - intros [= <- _]. autorewrite with handler_fields. exact Hp. }
  split; [exact Hnone|].
  intros w' cmd Hcmd. exact (request_without_process_spawns w' self' cmd Hnone Hcmd).
Qed.

Lemma proc_lock_set_proc p self : proc_lock (state (set_proc p self)) = proc_lock (state self).
Proof. destruct self; reflexivity. Qed.

Lemma proc_lock_del_proc self : proc_lock (state (del_proc self)) = proc_lock (state self).
Proof. destruct self; reflexivity. Qed.

#[local] Hint Rewrite proc_lock_set_proc proc_lock_del_proc proc_lock_initialize
  : handler_fields.

(** Every call leaves the lock in the state. *)
Lemma request_keeps_lock w self :
  proc_lock (state (fst (request_ensure_process w self))) <> None.
Proof.
  destruct (request_ensure_process_paths w self) as [-> Hlock].
  rewrite (ensure_process_paths _ _ Hlock), proc_initialize.
  destruct (proc (state self)) as [p|];
    [|destruct (get_cmd_result w) as [cmd|e];
      [destruct (start_result w) as [[]|e]; [destruct (ready_result w) as [[|]|e]|]|]];
    cbn [fst]; autorewrite with handler_fields; discriminate.
Qed.

(** Calls on a record that holds a process all return, start nothing and
    leave the record as it is. *)
Lemma calls_with_process ws : forall self,
  proc_lock (state self) <> None -> proc (state self) <> None ->
  Forall (fun r => r = Returns tt) (snd (ensure_process_calls ws self)) /\
  state (fst (ensure_process_calls ws self)) = state self /\
  spawns (events (fst (ensure_process_calls ws self))) = spawns (events self).
Proof.
  induction ws as [|w ws IH]; intros self Hlock Hproc; cbn [ensure_process_calls].
  - repeat split. constructor.
  - destruct (proc (state self)) as [p|] eqn:Hp; [|contradiction].
    rewrite (request_with_process w self p Hp), (initialize_locked self Hlock).
    specialize (IH (emit LockReleased (emit LockAcquired self))).
    rewrite !state_emit, Hp in IH. specialize (IH Hlock Hproc).
    destruct (ensure_process_calls ws (emit LockReleased (emit LockAcquired self)))
      as [self' rs].
    cbn [fst snd] in *. destruct IH as (Hrs & Hst & Hsp). repeat split.
    + constructor; [reflexivity|exact Hrs].
    + exact Hst.
    + rewrite Hsp. autorewrite with handler_fields. cbn. lia.
Qed.

(** C2. When [start] returns and [ready] answers [False] (the readiness
    probe did not succeed within the timeout the process was made with, which
    is the 5 of [get_timeout]), [ensure_process] kills the process, fails, and
    leaves no ['proc'] in the state; the kill done, the failure is the
    [HTTPError] with status 500 and message [could not start <name> in time],
    which ends [proxy] before anything is forwarded and is answered with
    status 500. *)
Theorem not_ready_in_time w self cmd :
  proc (state self) = None ->
  get_cmd_result w = Returns cmd ->
  start_result w = Returns tt ->
  ready_result w = Returns false ->
  let p := mkSupervisedProcess (name self) cmd (os_environ w) get_timeout in
  let self' := fst (request_ensure_process w self) in
  let failure := HTTPError 500 ("could not start " +:+ name self +:+ " in time") in
  sp_ready_timeout p = 5 /\
  events self'
  = events self ++ [LockAcquired; ProcStart p; ProcReady p; ProcKill p; LockReleased] /\
  proc (state self') = None /\
  (exists e, snd (request_ensure_process w self) = Raises e) /\
  (kill_result w = Returns tt ->
   snd (request_ensure_process w self) = Raises failure /\
   error_status failure = 500 /\
   forall join ephemeral fetch path,
     SuperviseAndProxyHandler.proxy join w ephemeral fetch path
       (initialize (state self) self)
     = (self', Raises failure) /\
     fetched (events self') = fetched (events self)).
Proof.
  intros Hp Hcmd Hstart Hready p self' failure.
  assert (Hcall : request_ensure_process w self
    = (emit LockReleased
         (del_proc
            (emit (ProcKill p)
               (emit (ProcReady p)
                  (emit (ProcStart p)
                     (set_proc p (emit LockAcquired (initialize (state self) self))))))),
       Raises match kill_result w with Raises e => e | Returns _ => failure end)).
  { destruct (request_ensure_process_paths w self) as [-> Hlock].
    rewrite (ensure_process_paths _ _ Hlock), proc_initialize, Hp, Hcmd, Hstart, Hready.
    cbn zeta. destruct self; reflexivity. }
  assert (Hev : events self'
    = events self ++ [LockAcquired; ProcStart p; ProcReady p; ProcKill p; LockReleased]).
  { unfold self'. rewrite Hcall. cbn [fst]. autorewrite with handler_fields.
    rewrite <- !app_assoc. reflexivity. }
  split; [reflexivity|]. split; [exact Hev|]. split.
  { unfold self'. rewrite Hcall. cbn [fst]. autorewrite with handler_fields. reflexivity. }
  split.
  { rewrite Hcall. cbn [snd]. eexists. reflexivity. }
  intros Hkill. rewrite Hkill in Hcall. split; [rewrite Hcall; reflexivity|].
  split; [reflexivity|].
  intros join ephemeral fetch path. split.
  - unfold proxy, bind. change (ensure_process w (initialize (state self) self))
      with (request_ensure_process w self).
    unfold self'. rewrite Hcall. reflexivity.
  - rewrite Hev, fetched_app. cbn. rewrite app_nil_r. reflexivity.
Qed.

(** C3. Where ['proc'] is in the state, [ensure_process] returns without
    starting a process and leaves the state as it is; and in every run of
    calls on a target whose first call returns, every call returns and at
    most one process is started. *)
Theorem ensure_process_single_flight w ws self self1 :
  request_ensure_process w self = (self1, Returns tt) ->
  (forall w' self2,
     proc_lock (state self2) <> None -> proc (state self2) <> None ->
     ensure_process w' self2 = (emit LockReleased (emit LockAcquired self2), Returns tt) /\
     state (emit LockReleased (emit LockAcquired self2)) = state self2 /\
     spawns (events (emit LockReleased (emit LockAcquired self2)))
     = spawns (events self2)) /\
  proc (state self1) <> None /\
  Forall (fun r => r = Returns tt) (snd (ensure_process_calls (w :: ws) self)) /\
  state (fst (ensure_process_calls (w :: ws) self)) = state self1 /\
  (spawns (events (fst (ensure_process_calls (w :: ws) self)))
   <= S (spawns (events self)))%nat.
Proof.
  intros Hfirst. split.
  { intros w' self2 Hlock Hproc. rewrite (ensure_process_paths _ _ Hlock).
    destruct (proc (state self2)); [|contradiction].
    autorewrite with handler_fields. cbn. repeat split. lia. }
  pose proof (request_success_has_process _ _ _ Hfirst) as Hproc.
  pose proof (request_keeps_lock w self) as Hlock.
  pose proof (request_spawns_at_most_once w self) as Hone.
  rewrite Hfirst in Hlock, Hone. cbn [fst] in Hlock, Hone.
  split; [exact Hproc|].
  cbn [ensure_process_calls]. rewrite Hfirst.
  destruct (calls_with_process ws self1 Hlock Hproc) as (Hrs & Hst & Hsp).
  destruct (ensure_process_calls ws self1) as [selfn rs]. cbn [fst snd] in *.
  split; [constructor; [reflexivity|exact Hrs]|].
  split; [exact Hst|]. rewrite Hsp. exact Hone.
Qed.

(** ** Building the outbound request *)

Lemma values_set_norm k k' v h :
  HTTPHeaders.values k (HTTPHeaders.set_norm k' v h)
  = if String.eqb k' k then Some [v] else HTTPHeaders.values k h.
Proof.
  induction h as [|[k0 vs] h IH]; cbn [HTTPHeaders.set_norm HTTPHeaders.values].
  - reflexivity.
  - destruct (String.eqb_spec k0 k') as [->|Hne]; cbn [HTTPHeaders.values].
    + destruct (String.eqb k' k); reflexivity.
    + rewrite IH. destruct (String.eqb_spec k0 k) as [->|_]; [|reflexivity].
      destruct (String.eqb_spec k' k) as [->|_]; [contradiction|reflexivity].
Qed.

(** Reading a name back after [h[name'] = value]. *)
Lemma getitem_setitem name name' v h :
  HTTPHeaders.getitem name (HTTPHeaders.setitem name' v h)
  = if String.eqb (HTTPHeaders.normalize name') (HTTPHeaders.normalize name)
    then Some v else HTTPHeaders.getitem name h.
Proof.
  unfold HTTPHeaders.getitem, HTTPHeaders.setitem. rewrite values_set_norm.
  destruct (String.eqb _ _); reflexivity.
Qed.

(** C5, as amended. With rewrite mode passthrough (['/']), base URL [/app]
    and no proxy base, a request for [/foo] with query [x=1] on port 9000
    goes out to [http://localhost:9000/foo?x=1] with the headers
    X-Forwarded-Context and X-ProxyContextPath both set to [/app/proxy/9000].
    Whenever a request is built, both headers are set to the context path
    if [rewrite] is not the empty string: that is passthrough mode, or
    another value together with a proxy base; and they are not set in
    absolute mode (the empty string), where the outbound headers are a copy
    of the request's own. *)
Theorem passthrough_request (join : list string -> string) :
  join ["/app"; "proxy"; "9000"] = "/app/proxy/9000" ->
  (forall self port body,
     base_url self = "/app" -> proxy_base self = EmptyString -> rewrite self = "/" ->
     query (request self) = "x=1" -> str_port port = "9000" ->
     exists req,
       LocalProxyHandler._build_proxy_request join self port "/foo" body = Returns req /\
       url req = "http://localhost:9000/foo?x=1" /\
       HTTPHeaders.getitem "X-Forwarded-Context" (req_headers req)
       = Some "/app/proxy/9000" /\
       HTTPHeaders.getitem "X-ProxyContextPath" (req_headers req)
       = Some "/app/proxy/9000") /\
  (forall self port path body req,
     LocalProxyHandler._build_proxy_request join self port path body = Returns req ->
     (rewrite self <> EmptyString ->
      let context_path :=
        if String.eqb (proxy_base self) EmptyString
        then join [base_url self; "proxy"; str_port port]
        else join [base_url self; proxy_base self] in
      HTTPHeaders.getitem "X-Forwarded-Context" (req_headers req) = Some context_path /\
      HTTPHeaders.getitem "X-ProxyContextPath" (req_headers req) = Some context_path /\
      (rewrite self = "/" \/ proxy_base self <> EmptyString)) /\
     (rewrite self = EmptyString ->
      req_headers req = HTTPHeaders.copy (headers (request self)))).
Proof.
  intros Hjoin. split.
  - intros self port body Hbase Hpb Hrw Hq Hport.
    unfold LocalProxyHandler._build_proxy_request, LocalProxyHandler._get_context_path.
    rewrite Hpb, Hrw, Hq, Hbase, Hport, Hjoin. cbn [Text.truthy in_tuple existsb].
    eexists. split; [reflexivity|]. cbn [url req_headers].
    split; [reflexivity|].
    rewrite !getitem_setitem. split; reflexivity.
  - intros self port path body req.
    unfold LocalProxyHandler._build_proxy_request, LocalProxyHandler._get_context_path.
    destruct (proxy_base self) as [|b bs] eqn:Hpb; cbn [Text.truthy String.eqb].
    + destruct (in_tuple (rewrite self) ["/"; EmptyString]) eqn:Hin; [|discriminate].
      intros [= <-]. cbn [req_headers]. split.
      * intros Hrw. destruct (rewrite self) as [|c r] eqn:Hr; [contradiction|].
        cbn [Text.truthy]. rewrite !getitem_setitem.
        split; [reflexivity|]. split; [reflexivity|]. left.
        apply in_tuple_In in Hin. destruct Hin as [Hin|[Hin|[]]]; congruence.
      * intros Hrw. rewrite Hrw. reflexivity.
    + intros [= <-]. cbn [req_headers]. split.
      * intros Hrw. destruct (rewrite self) as [|c r]; [contradiction|].
        cbn [Text.truthy]. rewrite !getitem_setitem.
        split; [reflexivity|]. split; [reflexivity|]. right. discriminate.
      * intros Hrw. rewrite Hrw. reflexivity.
Qed.

Lemma passthrough_request_witness :
  url_path_join ["/app"; "proxy"; "9000"] = "/app/proxy/9000" /\
  (exists req,
     LocalProxyHandler._build_proxy_request url_path_join sample_handler (PortNumber 9000)
       "/foo" None = Returns req /\
     url req = "http://localhost:9000/foo?x=1" /\
     HTTPHeaders.getitem "X-Forwarded-Context" (req_headers req) = Some "/app/proxy/9000" /\
     HTTPHeaders.getitem "X-ProxyContextPath" (req_headers req) = Some "/app/proxy/9000") /\
  (forall req,
     LocalProxyHandler._build_proxy_request url_path_join sample_named_handler
       (PortNumber 9000) "/foo" None = Returns req ->
     HTTPHeaders.getitem "X-Forwarded-Context" (req_headers req) = Some "/app/lab" /\
     HTTPHeaders.getitem "X-ProxyContextPath" (req_headers req) = Some "/app/lab").
Proof.
  split; [reflexivity|]. split.
  - apply (proj1 (passthrough_request url_path_join eq_refl) sample_handler
             (PortNumber 9000) None); reflexivity.
  - intros req Hreq.
    destruct (proj2 (passthrough_request url_path_join eq_refl) sample_named_handler
                (PortNumber 9000) "/foo" None req Hreq) as [Hset _].
    destruct Hset as (Hf & Hp & _); [discriminate|]. split; [exact Hf|exact Hp].
Defined.

(** C6, the claim as stated, refuted: with a proxy base configured, a
    rewrite mode that is neither of the two does not make building the
    outbound request fail. *)
Lemma unsupported_rewrite_with_proxy_base_builds :
  ~ (forall (join : list string -> string) self port path body,
       rewrite self <> "/" -> rewrite self <> EmptyString ->
       exists e, LocalProxyHandler._build_proxy_request join self port path body
                 = Raises e).
Proof.
  intros H.
  destruct (H url_path_join sample_named_handler (PortNumber 9000) "/foo" None)
    as [e He]; [discriminate|discriminate|].
  vm_compute in He. discriminate He.
Qed.

(** What is built in that case: the request of passthrough mode, with the
    context path of the proxy base. *)
Example unsupported_rewrite_with_proxy_base_request :
  LocalProxyHandler._build_proxy_request url_path_join sample_named_handler
    (PortNumber 9000) "/foo" None
  = Returns
      (mkHTTPRequest "http://localhost:9000/foo?x=1" "POST" None
         [("Host", ["hub.example"]); ("Upgrade", ["WebSocket"]);
          ("Proxy-Connection", ["keep-alive"]);
          ("X-Forwarded-Context", ["/app/lab"]); ("X-Proxycontextpath", ["/app/lab"])]
         false).
Proof. vm_compute. reflexivity. Qed.

(** C5, the claim as stated, refuted: the two headers are not set in
    passthrough mode only.  With a proxy base configured and a rewrite mode
    that is neither of the two, the outbound request has the header though
    the inbound one had not. *)
Lemma context_headers_outside_passthrough :
  ~ (forall (join : list string -> string) self port path body req,
       LocalProxyHandler._build_proxy_request join self port path body = Returns req ->
       HTTPHeaders.contains "X-Forwarded-Context" (headers (request self)) = false ->
       HTTPHeaders.contains "X-Forwarded-Context" (req_headers req) = true ->
       rewrite self = "/").
Proof.
  intros H.
  specialize (H url_path_join sample_named_handler (PortNumber 9000) "/foo" None _
                unsupported_rewrite_with_proxy_base_request eq_refl eq_refl).
  discriminate H.
Qed.

Lemma unsupported_rewrite_without_proxy_base_witness :
  (rewrite (LocalProxyHandler.__init__ "/app" (Some "strip") sample_request HTTPHeaders.empty)
   <> "/" /\
   rewrite (LocalProxyHandler.__init__ "/app" (Some "strip") sample_request HTTPHeaders.empty)
   <> EmptyString /\
   proxy_base (LocalProxyHandler.__init__ "/app" (Some "strip") sample_request HTTPHeaders.empty)
   = EmptyString) /\
  let self := LocalProxyHandler.__init__ "/app" (Some "strip") sample_request HTTPHeaders.empty in
  let failure :=
    ValueError ("Unsupported rewrite: " +:+ dquote +:+ rewrite self +:+ dquote) in
  LocalProxyHandler._build_proxy_request url_path_join self (PortNumber 9000) "/foo" None
  = Raises failure /\
  snd (LocalProxyHandler.proxy url_path_join backend_not_found (PortNumber 9000) "/foo" self)
  = Raises failure /\
  fetched (events (fst (LocalProxyHandler.proxy url_path_join backend_not_found
                          (PortNumber 9000) "/foo" self)))
  = fetched (events self).
Proof.
  split; [repeat split; discriminate|].
  apply (unsupported_rewrite_without_proxy_base url_path_join backend_not_found
           (PortNumber 9000) "/foo" None
           (LocalProxyHandler.__init__ "/app" (Some "strip") sample_request HTTPHeaders.empty));
    [discriminate|discriminate|reflexivity].
Defined.

(** ** The backend WebSocket *)

(** C8, as amended. [open] for port [p] and path [q] schedules the
    connection to [ws://127.0.0.1:<p><q>[?query]], where [q] is given a
    leading slash when it has none; the scheduled callback connects to that
    URI with the headers of the original request, and keeps the connection
    when it is established. *)
Theorem websocket_backend_uri port path self connected :
  let q := if Text.startswith path "/" then path else "/" +:+ path in
  let uri :=
    "ws://127.0.0.1:" +:+ str_port port +:+ q +:+
    (if Text.truthy (query (request self))
     then "?" +:+ query (request self) else EmptyString) in
  let outbound := HTTPRequest_defaults uri (headers (request self)) in
  let scheduled := emit (AddCallback uri) self in
  let self' := fst (LocalProxyHandler.start_websocket_connection uri connected scheduled) in
  LocalProxyHandler.open port path self = (scheduled, Returns uri) /\
  url outbound = uri /\ req_headers outbound = headers (request self) /\
  (exists rest,
     events self'
     = events self ++
         [AddCallback uri;
          LogInfo ("Trying to establish websocket connection to " +:+ uri);
          Activity;
          WsConnect outbound] ++ rest) /\
  (connected = Returns tt -> ws self' = Some outbound).
Proof.
  intros q uri outbound scheduled self'.
  assert (Huri :
    (let client_uri := "ws://127.0.0.1" +:+ ":" +:+ str_port port +:+ q in
     if Text.truthy (query (request self))
     then client_uri +:+ "?" +:+ query (request self) else client_uri) = uri).
  { unfold uri. cbn zeta. destruct (Text.truthy (query (request self))).
    - rewrite !append_assoc. reflexivity.
    - rewrite append_empty_r. reflexivity. }
  split.
  { unfold LocalProxyHandler.open, bind, gets, modify, ret. unfold Text.startswith in *.
    fold q. replace (if negb (String.prefix "/" path) then "/" +:+ path else path) with q
      by (unfold q, Text.startswith; destruct (String.prefix "/" path); reflexivity).
    cbn zeta in Huri. rewrite Huri. reflexivity. }
  split; [reflexivity|]. split; [reflexivity|].
  unfold self', LocalProxyHandler.start_websocket_connection,
    LocalProxyHandler._record_activity, bind, gets, modify, outcome.
  destruct connected as [[]|e]; cbn [fst]; split.
  - eexists. unfold scheduled. destruct self; cbn. rewrite <- !app_assoc. cbn.
    reflexivity.
  - intros _. unfold scheduled, outbound. destruct self; reflexivity.
  - exists []. unfold scheduled. destruct self; cbn. rewrite <- !app_assoc. reflexivity.
  - discriminate.
Qed.

(** C8, the claim as stated, refuted: the URI is not on host [localhost]. *)
Lemma websocket_uri_not_localhost :
  ~ (forall self port path,
       snd (LocalProxyHandler.open port path self)
       = Returns (documented_ws_uri port path (query (request self)))).
Proof.
  intros H. specialize (H sample_handler (PortNumber 9000) "/ws").
  vm_compute in H. discriminate H.
Qed.

Example websocket_sample_uri :
  snd (LocalProxyHandler.open (PortNumber 9000) "/ws" sample_handler)
  = Returns "ws://127.0.0.1:9000/ws?x=1" /\
  documented_ws_uri (PortNumber 9000) "/ws" (query (request sample_handler))
  = "ws://localhost:9000/ws?x=1".
Proof. split; vm_compute; reflexivity. Qed.

(** ** Sample runs of [ensure_process] *)

Lemma failed_start_leaves_no_process_witness :
  request_ensure_process attempt_start_fails sample_handler
  = (fst (request_ensure_process attempt_start_fails sample_handler),
     Raises (OtherError "[Errno 2] No such file or directory: 'backend'")) /\
  proc (state (fst (request_ensure_process attempt_start_fails sample_handler))) = None /\
  forall w' cmd,
    get_cmd_result w' = Returns cmd ->
    spawns (events (fst (request_ensure_process w'
                           (fst (request_ensure_process attempt_start_fails
                                   sample_handler)))))
    = S (spawns (events (fst (request_ensure_process attempt_start_fails sample_handler)))).
Proof.
  split; [vm_compute; reflexivity|].
  apply (failed_start_leaves_no_process attempt_start_fails sample_handler
           (fst (request_ensure_process attempt_start_fails sample_handler))
           (OtherError "[Errno 2] No such file or directory: 'backend'")).
  vm_compute; reflexivity.
Defined.

(** The failures of the claim, one by one, and the retry after each. *)
Example rollback_after_spawn_error :
  let '(self', rs) :=
    ensure_process_calls [attempt_start_fails; attempt_ready] sample_handler in
  rs = [Raises (OtherError "[Errno 2] No such file or directory: 'backend'"); Returns tt] /\
  spawns (events self') = 2%nat.
Proof. vm_compute. split; reflexivity. Qed.

Example rollback_after_timeout :
  let '(self', rs) :=
    ensure_process_calls [attempt_never_ready; attempt_ready] sample_handler in
  rs = [Raises (HTTPError 500 "could not start process in time"); Returns tt] /\
  spawns (events self') = 2%nat.
Proof. vm_compute. split; reflexivity. Qed.

Lemma not_ready_in_time_witness :
  (proc (state sample_handler) = None /\
   get_cmd_result attempt_never_ready = Returns ["backend"; "--port=9000"] /\
   start_result attempt_never_ready = Returns tt /\
   ready_result attempt_never_ready = Returns false) /\
  let p := mkSupervisedProcess "process" ["backend"; "--port=9000"] ∅ 5 in
  events (fst (request_ensure_process attempt_never_ready sample_handler))
  = [LockAcquired; ProcStart p; ProcReady p; ProcKill p; LockReleased] /\
  snd (request_ensure_process attempt_never_ready sample_handler)
  = Raises (HTTPError 500 "could not start process in time").
Proof.
  split; [repeat split|].
  pose proof (not_ready_in_time attempt_never_ready sample_handler
                ["backend"; "--port=9000"] eq_refl eq_refl eq_refl eq_refl) as H.
  cbn zeta in H. destruct H as (_ & Hev & _ & _ & Hkill).
  split; [exact Hev|]. exact (proj1 (Hkill eq_refl)).
Defined.

Lemma ensure_process_single_flight_witness :
  request_ensure_process attempt_ready sample_handler
  = (fst (request_ensure_process attempt_ready sample_handler), Returns tt) /\
  Forall (fun r => r = Returns tt)
    (snd (ensure_process_calls [attempt_ready; attempt_never_ready; attempt_start_fails]
            sample_handler)) /\
  (spawns (events (fst (ensure_process_calls
                          [attempt_ready; attempt_never_ready; attempt_start_fails]
                          sample_handler)))
   <= S (spawns (events sample_handler)))%nat.
Proof.
  split; [vm_compute; reflexivity|].
  pose proof (ensure_process_single_flight attempt_ready
                [attempt_never_ready; attempt_start_fails] sample_handler
                (fst (request_ensure_process attempt_ready sample_handler))) as H.
  destruct H as (_ & _ & Hrs & _ & Hsp); [vm_compute; reflexivity|].
  split; [exact Hrs|exact Hsp].
Defined.

(** * Further properties *)

(** ** The request sent to the backend *)

(** X1. Of the headers of a forwarded request: Proxy-Connection, however
    its name is spelled, is taken out of the inbound request and is not in
    the outbound one; the outbound headers are the inbound ones without it,
    with the two context headers set on top when [rewrite] is not empty. *)
Theorem outbound_headers join fetch port path self self' :
  HTTPHeaders.wf (headers (request self)) = true ->
  LocalProxyHandler.proxy join fetch port path self = (self', Returns tt) ->
  let inbound := HTTPHeaders.delitem "Proxy-Connection" (headers (request self)) in
  exists req context_path,
    fetched (events self') = fetched (events self) ++ [req] /\
    LocalProxyHandler._get_context_path join self port = Returns context_path /\
    headers (request self') = inbound /\
    req_headers req
    = (if Text.truthy (rewrite self)
       then HTTPHeaders.setitem "X-ProxyContextPath" context_path
              (HTTPHeaders.setitem "X-Forwarded-Context" context_path inbound)
       else inbound) /\
    forall name,
      Text.lower name = "proxy-connection" ->
      HTTPHeaders.contains name (headers (request self')) = false /\
      HTTPHeaders.contains name (req_headers req) = false.
Proof.
  intros Hwf H inbound.
  destruct (proxy_outbound join fetch port path self self' H)
    as (req & cp & Hf & Hcp & Hrq & Hreq).
  fold inbound in Hrq, Hreq.
  assert (Hin : HTTPHeaders.wf inbound = true) by (apply wf_delitem, Hwf).
  rewrite (copy_wf _ Hin) in Hreq.
  exists req, cp. split; [exact Hf|]. split; [exact Hcp|]. split; [exact Hrq|].
  assert (Hout : req_headers req
    = (if Text.truthy (rewrite self)
       then HTTPHeaders.setitem "X-ProxyContextPath" cp
              (HTTPHeaders.setitem "X-Forwarded-Context" cp inbound)
       else inbound)) by (rewrite Hreq; reflexivity).
  split; [exact Hout|].
  intros name Hname.
  assert (Hnorm : HTTPHeaders.normalize name = "Proxy-Connection").
  { change "Proxy-Connection" with (HTTPHeaders.normalize "proxy-connection").
    apply normalize_same_lower. rewrite Hname. reflexivity. }
  assert (Hgone : HTTPHeaders.contains name inbound = false).
  { rewrite contains_has_key, Hnorm. apply has_key_del_norm_same, Hwf. }
  split; [rewrite Hrq; exact Hgone|].
  rewrite Hout. destruct (Text.truthy (rewrite self)); [|exact Hgone].
  unfold HTTPHeaders.contains in *. rewrite !getitem_setitem, Hnorm. exact Hgone.
Qed.

Lemma outbound_headers_witness :
  (HTTPHeaders.wf (headers (request sample_handler)) = true /\
   LocalProxyHandler.proxy url_path_join backend_not_found (PortText "9000") "/foo"
     sample_handler = (sample_reply_not_found, Returns tt)) /\
  exists req context_path,
    fetched (events sample_reply_not_found) = fetched (events sample_handler) ++ [req] /\
    LocalProxyHandler._get_context_path url_path_join sample_handler (PortText "9000")
    = Returns context_path /\
    headers (request sample_reply_not_found)
    = HTTPHeaders.delitem "Proxy-Connection" (headers (request sample_handler)) /\
    req_headers req
    = (if Text.truthy (rewrite sample_handler)
       then HTTPHeaders.setitem "X-ProxyContextPath" context_path
              (HTTPHeaders.setitem "X-Forwarded-Context" context_path
                 (HTTPHeaders.delitem "Proxy-Connection"
                    (headers (request sample_handler))))
       else HTTPHeaders.delitem "Proxy-Connection" (headers (request sample_handler))) /\
    forall name,
      Text.lower name = "proxy-connection" ->
      HTTPHeaders.contains name (headers (request sample_reply_not_found)) = false /\
      HTTPHeaders.contains name (req_headers req) = false.
Proof.
  split; [split; vm_compute; reflexivity|].
  apply (outbound_headers url_path_join backend_not_found (PortText "9000") "/foo"
           sample_handler sample_reply_not_found); vm_compute; reflexivity.
Defined.

(** X2. Of the rest of a forwarded request: it has the method of the
    inbound request, never follows redirects, carries a non-empty inbound
    body as it is, and when [rewrite] is not empty goes to
    [http://localhost:<port><path>[?query]] with path and query as received. *)
Theorem outbound_request_line join fetch port path self self' :
  LocalProxyHandler.proxy join fetch port path self = (self', Returns tt) ->
  exists req,
    fetched (events self') = fetched (events self) ++ [req] /\
    req_method req = method (request self) /\
    follow_redirects req = false /\
    (body (request self) <> EmptyString -> req_body req = Some (body (request self))) /\
    (rewrite self <> EmptyString ->
     url req
     = "http://localhost:" +:+ str_port port +:+ path +:+
       (if Text.truthy (query (request self))
        then "?" +:+ query (request self) else EmptyString)).
Proof.
  intros H.
  destruct (proxy_outbound join fetch port path self self' H)
    as (req & cp & Hf & _ & _ & Hreq).
  exists req. split; [exact Hf|]. rewrite Hreq.
  cbn [req_method follow_redirects req_body url].
  split; [reflexivity|]. split; [reflexivity|]. split.
  - intros Hb. unfold LocalProxyHandler.request_body.
    destruct (body (request self)); [contradiction|reflexivity].
  - intros Hrw. destruct (rewrite self) as [|c r]; [contradiction|].
    cbn [Text.truthy]. destruct (Text.truthy (query (request self))).
    + rewrite !append_assoc. reflexivity.
    + rewrite append_empty_r. reflexivity.
Qed.

Lemma outbound_request_line_witness :
  LocalProxyHandler.proxy url_path_join backend_not_found (PortText "9000") "/foo"
    sample_handler = (sample_reply_not_found, Returns tt) /\
  exists req,
    fetched (events sample_reply_not_found) = fetched (events sample_handler) ++ [req] /\
    req_method req = method (request sample_handler) /\
    follow_redirects req = false /\
    (body (request sample_handler) <> EmptyString ->
     req_body req = Some (body (request sample_handler))) /\
    (rewrite sample_handler <> EmptyString ->
     url req
     = "http://localhost:" +:+ str_port (PortText "9000") +:+ "/foo" +:+
       (if Text.truthy (query (request sample_handler))
        then "?" +:+ query (request sample_handler) else EmptyString)).
Proof.
  split; [vm_compute; reflexivity|].
  apply (outbound_request_line url_path_join backend_not_found (PortText "9000") "/foo"
           sample_handler sample_reply_not_found); vm_compute; reflexivity.
Defined.

Lemma proxy_trace_witness :
  LocalProxyHandler.proxy url_path_join backend_unreachable (PortText "9000") "/foo"
    sample_handler = (sample_reply_unreachable, Returns tt) /\
  activities (events sample_reply_unreachable)
  = (activities (events sample_handler) + 2)%nat.
Proof.
  split; [vm_compute; reflexivity|].
  destruct (proxy_trace url_path_join backend_unreachable (PortText "9000") "/foo"
              sample_handler sample_reply_unreachable) as (req & _ & Hact & _);
    [vm_compute; reflexivity|exact Hact].
Defined.

Lemma response_body_and_headers_witness :
  LocalProxyHandler.proxy url_path_join backend_not_found (PortText "9000") "/foo"
    sample_handler = (sample_reply_not_found, Returns tt) /\
  exists req,
    fetched (events sample_reply_not_found) = fetched (events sample_handler) ++ [req] /\
    (LocalProxyHandler.non_http_error (backend_not_found req) = None ->
     _write_buffer sample_reply_not_found
     = _write_buffer sample_handler ++
         match resp_body (backend_not_found req) with
         | Some b => if Text.truthy b then [b] else []
         | None => []
         end) /\
    (forall err,
       LocalProxyHandler.non_http_error (backend_not_found req) = Some err ->
       _headers sample_reply_not_found = _headers sample_handler /\
       _reason sample_reply_not_found = StandardReason 500).
Proof.
  split; [vm_compute; reflexivity|].
  apply (response_body_and_headers url_path_join backend_not_found (PortText "9000")
           "/foo" sample_handler sample_reply_not_found); vm_compute; reflexivity.
Defined.

(** ** The supervised process *)

(** X5. The [port] property binds a port once: the first read stores the
    fresh number if the state has none, every read after it gives the stored
    number whatever fresh number is on offer, and no read touches the lock,
    the process or the events. *)
Theorem port_is_allocated_once e1 e2 self :
  let n := port_read e1 self in
  let s1 := fst (SuperviseAndProxyHandler.port e1 self) in
  SuperviseAndProxyHandler.port e1 self = (s1, Returns n) /\
  allocated_port s1 = Some n /\
  proc (state s1) = proc (state self) /\
  proc_lock (state s1) = proc_lock (state self) /\
  events s1 = events self /\
  SuperviseAndProxyHandler.port e2 s1 = (s1, Returns n).
Proof.
  destruct self as [bu pb rw nm rq sc rs hs wb ws0 [lk [pt|] pr] evs];
    repeat split; reflexivity.
Qed.

(** Every path of a call, without the condition on the lock: the handler's
    configuration, request and port are left alone and nothing is fetched. *)
Lemma ensure_process_frame w self :
  let s := fst (ensure_process w self) in
  request s = request self /\ rewrite s = rewrite self /\
  base_url s = base_url self /\ proxy_base s = proxy_base self /\
  allocated_port s = allocated_port self /\
  fetched (events s) = fetched (events self).
Proof.
  destruct (proc_lock (state self)) as [u|] eqn:Hl.
  - assert (Hlock : proc_lock (state self) <> None) by congruence.
    rewrite (ensure_process_paths _ _ Hlock).
    destruct (proc (state self)) as [p|];
      [|destruct (get_cmd_result w) as [cmd|e];
        [destruct (start_result w) as [[]|e]; [destruct (ready_result w) as [[|]|e]|]|]];
      cbn [fst]; destruct self as [? ? ? ? ? ? ? ? ? ? [? ? ?] ?];
      cbn -[fetched]; repeat split; try reflexivity;
      rewrite ?fetched_app; cbn [fetched]; rewrite ?app_nil_r; reflexivity.
  - unfold ensure_process, bind, gets, raise. rewrite Hl. repeat split; reflexivity.
Qed.

(** X6. Every call of [ensure_process], however it ends, takes the lock
    first and releases it last, and does neither in between. *)
Theorem lock_is_released w self :
  exists middle,
    events (fst (request_ensure_process w self))
    = events self ++ LockAcquired :: middle ++ [LockReleased] /\
    Forall (fun e => is_lock_event e = false) middle.
Proof.
  destruct (request_ensure_process_paths w self) as [-> Hlock].
  rewrite (ensure_process_paths _ _ Hlock), proc_initialize.
  destruct (proc (state self)) as [p|];
    [|destruct (get_cmd_result w) as [cmd|e];
      [destruct (start_result w) as [[]|e]; [destruct (ready_result w) as [[|]|e]|]|]];
    cbn [fst]; autorewrite with handler_fields; rewrite <- ?app_assoc;
    cbn [app]; eexists;
    (split; [f_equal; f_equal;
             match goal with
             | |- ?l = ?m ++ [LockReleased] =>
                 match l with
                 | [LockReleased] => instantiate (1 := []); reflexivity
                 | [?a; LockReleased] => instantiate (1 := [a]); reflexivity
                 | [?a; ?b; LockReleased] => instantiate (1 := [a; b]); reflexivity
                 | [?a; ?b; ?c; LockReleased] => instantiate (1 := [a; b; c]); reflexivity
                 end
             end
           | repeat constructor]).
Qed.

(** X7. [ensure_process] kills a process in one case only: there was none
    in the state, this call started it and awaited it, and [ready] answered
    [False]; the call then fails and leaves no process in the state.  In that
    case it always kills. *)
Theorem kill_only_when_not_ready w self :
  exists new,
    events (fst (request_ensure_process w self)) = events self ++ new /\
    (forall p,
       In (ProcKill p) new ->
       In (ProcStart p) new /\ In (ProcReady p) new /\
       proc (state self) = None /\ ready_result w = Returns false /\
       raised (snd (request_ensure_process w self)) = true /\
       proc (state (fst (request_ensure_process w self))) = None) /\
    (proc (state self) = None ->
     (exists cmd, get_cmd_result w = Returns cmd) ->
     start_result w = Returns tt ->
     ready_result w = Returns false ->
     exists p, In (ProcKill p) new).
Proof.
  destruct (request_ensure_process_paths w self) as [-> Hlock].
  rewrite (ensure_process_paths _ _ Hlock), proc_initialize.
  destruct (proc (state self)) as [p0|] eqn:Hp;
    [|destruct (get_cmd_result w) as [cmd|e] eqn:Hcmd;
      [destruct (start_result w) as [[]|e] eqn:Hs;
       [destruct (ready_result w) as [[|]|e] eqn:Hr|]|]];
    cbn [fst snd]; autorewrite with handler_fields; rewrite <- ?app_assoc;
    (eexists; split; [reflexivity|]); cbn [app In raised]; split.
  all: try (intros H1 [c H2] H3 H4; congruence).
  all: intros p Hin; decompose [or] Hin; try discriminate; try contradiction.
  - match goal with H : ProcKill _ = ProcKill _ |- _ => injection H as <- end.
    repeat split; auto.
  - eexists. do 3 right. left. reflexivity.
Qed.

Lemma request_failure_no_process w self self' e :
  request_ensure_process w self = (self', Raises e) -> proc (state self') = None.
Proof.
  destruct (request_ensure_process_paths w self) as [-> Hlock].
  rewrite (ensure_process_paths _ _ Hlock), proc_initialize.
  destruct (proc (state self)) as [p|] eqn:Hp; [discriminate|].
  destruct (get_cmd_result w) as [cmd|e0].
  - cbn zeta. destruct (start_result w) as [[]|e1];
      [destruct (ready_result w) as [[|]|e1]|]; try discriminate;
      intros [= <- _]; autorewrite with handler_fields; reflexivity.
  - intros [= <- _]. autorewrite with handler_fields. exact Hp.
Qed.

(** X8. In every run of calls on a target the failures come first: once a
    call has returned, every later call returns.  The state holds a process
    at the end exactly when it held one at the start or some call returned,
    and each failed call started at most one process. *)
Theorem calls_fail_then_return ws : forall self,
  let rs := snd (ensure_process_calls ws self) in
  let self' := fst (ensure_process_calls ws self) in
  exists k,
    (k <= length ws)%nat /\
    Forall (fun r => raised r = true) (firstn k rs) /\
    Forall (fun r => r = Returns tt) (skipn k rs) /\
    (proc (state self') <> None <-> proc (state self) <> None \/ (k < length ws)%nat) /\
    (spawns (events self') <= spawns (events self) + k + 1)%nat.
Proof.
  induction ws as [|w ws IH]; intros self; cbn zeta.
  - exists 0%nat. cbn. repeat split; try constructor; try tauto.
    + intros [H|H]; [exact H|lia].
    + lia.
  - cbn [ensure_process_calls length].
    destruct (request_ensure_process w self) as [self1 r] eqn:Hcall.
    destruct r as [[]|e].
    + pose proof (request_success_has_process _ _ _ Hcall) as Hproc.
      pose proof (request_keeps_lock w self) as Hlock.
      pose proof (request_spawns_at_most_once w self) as Hone.
      rewrite Hcall in Hlock, Hone. cbn [fst] in Hlock, Hone.
      destruct (calls_with_process ws self1 Hlock Hproc) as (Hrs & Hst & Hsp).
      destruct (ensure_process_calls ws self1) as [selfn rs]. cbn [fst snd] in *.
      exists 0%nat. cbn [firstn skipn]. split; [lia|]. split; [constructor|].
      split; [constructor; [reflexivity|exact Hrs]|]. split.
      * rewrite Hst. split; [intros _; right; lia|intros _; exact Hproc].
      * lia.
    + pose proof (request_failure_no_process _ _ _ _ Hcall) as Hnone.
      pose proof (request_spawns_at_most_once w self) as Hone.
      rewrite Hcall in Hone. cbn [fst] in Hone.
      assert (Hbefore : proc (state self) = None).
      { destruct (proc (state self)) as [p|] eqn:Hp; [|reflexivity].
        rewrite (request_with_process w self p Hp) in Hcall. discriminate. }
      destruct (IH self1) as (k & Hk & Hfail & Hret & Hproc & Hsp).
      destruct (ensure_process_calls ws self1) as [selfn rs]. cbn [fst snd] in *.
      exists (S k). cbn [firstn skipn]. split; [lia|].
      split; [constructor; [reflexivity|exact Hfail]|]. split; [exact Hret|]. split.
      * rewrite Hproc, Hnone, Hbefore. split; intros [H|H]; try congruence; right; lia.
      * lia.
Qed.

(** X9. When [ensure_process] fails, the supervised [proxy] and [open] end
    with the same exception, in the handler as [ensure_process] left it: no
    request is fetched, no connection is scheduled, and the request is as it
    was. *)
Theorem failed_start_forwards_nothing join w ephemeral fetch path self self1 e :
  ensure_process w self = (self1, Raises e) ->
  SuperviseAndProxyHandler.proxy join w ephemeral fetch path self = (self1, Raises e) /\
  SuperviseAndProxyHandler.open w ephemeral path self = (self1, Raises e) /\
  fetched (events self1) = fetched (events self) /\
  request self1 = request self.
Proof.
  intros H. pose proof (ensure_process_frame w self) as F. rewrite H in F.
  cbn [fst] in F. destruct F as (Hrq & _ & _ & _ & _ & Hf).
  unfold SuperviseAndProxyHandler.proxy, SuperviseAndProxyHandler.open, bind.
  rewrite H. repeat split; assumption.
Qed.

Lemma port_frame ephemeral self :
  let s := fst (SuperviseAndProxyHandler.port ephemeral self) in
  SuperviseAndProxyHandler.port ephemeral self = (s, Returns (port_read ephemeral self)) /\
  allocated_port s = Some (port_read ephemeral self) /\
  request s = request self /\ rewrite s = rewrite self /\ events s = events self.
Proof.
  destruct self as [bu pb rw nm rq sc rs hs wb ws0 [lk [pt|] pr] evs];
    repeat split; reflexivity.
Qed.

(** What [LocalProxyHandler.open] schedules and returns. *)
Lemma local_open port path self :
  let q := if Text.startswith path "/" then path else "/" +:+ path in
  let uri :=
    "ws://127.0.0.1:" +:+ str_port port +:+ q +:+
    (if Text.truthy (query (request self))
     then "?" +:+ query (request self) else EmptyString) in
  LocalProxyHandler.open port path self = (emit (AddCallback uri) self, Returns uri).
Proof.
  intros q uri.
  unfold LocalProxyHandler.open, bind, gets, modify, ret.
  replace (if negb (Text.startswith path "/") then "/" +:+ path else path) with q
    by (unfold q; destruct (Text.startswith path "/"); reflexivity).
  replace (if Text.truthy (query (request self))
           then ("ws://127.0.0.1" +:+ ":" +:+ str_port port +:+ q) +:+
                "?" +:+ query (request self)
           else "ws://127.0.0.1" +:+ ":" +:+ str_port port +:+ q) with uri;
    [reflexivity|].
  unfold uri. destruct (Text.truthy (query (request self))).
  - rewrite !append_assoc. reflexivity.
  - rewrite append_empty_r. reflexivity.
Qed.

(** X10. Once [ensure_process] has returned, the supervised [open] and
    [proxy] reach the backend on one and the same port, the one in the state
    it left or else the fresh one that is then stored, and on the path made
    to start with a slash: [open] schedules [ws://127.0.0.1:<port><path>[?query]], and
    [proxy], when [rewrite] is not empty, fetches
    [http://localhost:<port><path>[?query]]. *)
Theorem started_target_is_reached_on_its_port
    join w ephemeral fetch path self self1 :
  ensure_process w self = (self1, Returns tt) ->
  let n := port_read ephemeral self1 in
  let q := if Text.startswith path "/" then path else "/" +:+ path in
  let query_part :=
    if Text.truthy (query (request self))
    then "?" +:+ query (request self) else EmptyString in
  (exists s2,
     SuperviseAndProxyHandler.open w ephemeral path self
     = (s2, Returns ("ws://127.0.0.1:" +:+ Text.str_of_N n +:+ q +:+ query_part)) /\
     allocated_port s2 = Some n) /\
  (forall self',
     SuperviseAndProxyHandler.proxy join w ephemeral fetch path self
     = (self', Returns tt) ->
     rewrite self <> EmptyString ->
     exists req,
       fetched (events self') = fetched (events self) ++ [req] /\
       url req = "http://localhost:" +:+ Text.str_of_N n +:+ q +:+ query_part).
Proof.
  intros H n q query_part.
  pose proof (ensure_process_frame w self) as F. rewrite H in F. cbn [fst] in F.
  destruct F as (Hrq & Hrw & _ & _ & _ & Hf).
  destruct (port_frame ephemeral self1) as (Hp & Hp2 & Hprq & Hprw & Hpev).
  fold n in Hp, Hp2. split.
  - unfold SuperviseAndProxyHandler.open, bind. rewrite H, Hp.
    pose proof (local_open (PortNumber n) path
                  (fst (SuperviseAndProxyHandler.port ephemeral self1))) as Ho.
    cbn zeta in Ho. rewrite Hprq, Hrq in Ho. rewrite Ho.
    eexists. split; [reflexivity|].
    destruct (fst (SuperviseAndProxyHandler.port ephemeral self1)); exact Hp2.
  - intros self' Hproxy Hrewrite.
    unfold SuperviseAndProxyHandler.proxy, bind in Hproxy. rewrite H, Hp in Hproxy.
    destruct (proxy_outbound join fetch _ _ _ _ Hproxy) as (req & cp & Hfe & _ & _ & Hreq).
    exists req. split.
    + rewrite Hfe, Hpev, Hf. reflexivity.
    + rewrite Hreq. cbn [url]. rewrite Hprw, Hrw, Hprq, Hrq.
      destruct (rewrite self) as [|c r]; [contradiction|]. cbn [Text.truthy str_port].
      fold query_part.
      replace (if negb (Text.startswith path "/") then "/" +:+ path else path) with q
        by (unfold q; destruct (Text.startswith path "/"); reflexivity).
      unfold query_part. destruct (Text.truthy (query (request self))).
      * rewrite !append_assoc. reflexivity.
      * rewrite append_empty_r. reflexivity.
Qed.

(** X11. The readiness probe asks [http://localhost:<port>] on the port of
    the target, which it binds if the state has none and which every later
    read of the [port] property gives again; it answers [True] to any
    response, whatever its status, [False] to a refused connection, and lets
    any other exception through. *)
Theorem readiness_probe_answer ephemeral get self :
  let n := port_read ephemeral self in
  let s1 := fst (ReadinessProbe._http_ready_func ephemeral get self) in
  snd (ReadinessProbe._http_ready_func ephemeral get self)
  = match get ("http://localhost:" +:+ Text.str_of_N n) with
    | ReadinessProbe.Responded _ => Returns true
    | ReadinessProbe.ClientConnectionError => Returns false
    | ReadinessProbe.GetRaises e => Raises e
    end /\
  allocated_port s1 = Some n /\
  events s1 = events self /\
  forall e2, SuperviseAndProxyHandler.port e2 s1 = (s1, Returns n).
Proof.
  unfold ReadinessProbe._http_ready_func, bind.
  destruct self as [bu pb rw nm rq sc rs hs wb ws0 [lk [pt|] pr] evs];
    cbn -[append Text.str_of_N];
    match goal with |- context [get ?u] => destruct (get u) end;
    repeat split; reflexivity.
Qed.

(** ** The WebSocket bridge *)

Lemma activities_app a b : activities (a ++ b) = (activities a + activities b)%nat.
Proof. unfold activities. rewrite List.filter_app, length_app. reflexivity. Qed.

(** What one input does to the session. *)
Lemma deliver_spec i self :
  let s := fst (WebSocketCallbacks.deliver i self) in
  ws s
  = match i with
    | WebSocketCallbacks.ConnectionAttempt uri (Returns _) =>
        Some (HTTPRequest_defaults uri (headers (request self)))
    | _ => ws self
    end /\
  snd (WebSocketCallbacks.deliver i self)
  = match i, ws self with
    | WebSocketCallbacks.FrontMessage m, Some _ =>
        [BackendWrite m (WebSocketCallbacks.is_bytes m)]
    | WebSocketCallbacks.FrontPinged data, Some _ => [BackendPing data]
    | WebSocketCallbacks.FrontClosed, Some _ => [BackendClose]
    | WebSocketCallbacks.BackendMessage (Some m), _ =>
        [FrontWrite m (WebSocketCallbacks.is_bytes m)]
    | WebSocketCallbacks.BackendMessage None, _ => [FrontClose]
    | WebSocketCallbacks.BackendPinged data, _ => [FrontPing data]
    | _, _ => []
    end /\
  activities (events s) = (activities (events self) + traffic i)%nat /\
  request s = request self.
Proof.
  destruct self as [bu pb rw nm rq sc rs hs wb [w|] st evs];
    destruct i as [m|d|d| |[m|]|d|uri [[]|e]];
    cbn -[activities append]; rewrite ?activities_app; cbn [activities List.filter length];
    repeat split; try reflexivity; lia.
Qed.

(** X12. While no connection to the backend has been established, nothing
    is sent to a backend: the frames and pings of the front side and its
    close are dropped, also after connection attempts that failed. *)
Theorem nothing_reaches_an_unconnected_backend inputs : forall self,
  ws self = None ->
  Forall (fun i => established i = false) inputs ->
  ws (fst (WebSocketCallbacks.session inputs self)) = None /\
  Forall (fun a => to_backend a = false) (snd (WebSocketCallbacks.session inputs self)).
Proof.
  induction inputs as [|i inputs IH]; intros self Hws Hin; cbn [WebSocketCallbacks.session].
  - split; [exact Hws|constructor].
  - apply Forall_cons_iff in Hin as [Hi Hin].
    destruct (deliver_spec i self) as (Hw & Ha & _ & _).
    destruct (WebSocketCallbacks.deliver i self) as [s1 actions]. cbn [fst snd] in *.
    assert (Hws1 : ws s1 = None).
    { rewrite Hw. destruct i as [m|d|d| |m|d|uri [[]|e]]; try exact Hws. discriminate Hi. }
    destruct (IH s1 Hws1 Hin) as [Hend Hrest].
    destruct (WebSocketCallbacks.session inputs s1) as [s2 more]. cbn [fst snd] in *.
    split; [exact Hend|]. apply Forall_app. split; [|exact Hrest].
    subst actions. destruct i as [m|d|d| |[m|]|d|uri c]; rewrite ?Hws; repeat constructor.
Qed.

Lemma session_connected inputs : forall self,
  ws self <> None ->
  backend_writes (snd (WebSocketCallbacks.session inputs self)) = front_messages inputs.
Proof.
  induction inputs as [|i inputs IH]; intros self Hws; cbn [WebSocketCallbacks.session].
  - reflexivity.
  - destruct (deliver_spec i self) as (Hw & Ha & _ & _).
    destruct (WebSocketCallbacks.deliver i self) as [s1 actions]. cbn [fst snd] in *.
    assert (Hws1 : ws s1 <> None).
    { rewrite Hw. destruct i as [m|d|d| |m|d|uri [[]|e]]; try exact Hws. discriminate. }
    specialize (IH s1 Hws1).
    destruct (WebSocketCallbacks.session inputs s1) as [s2 more]. cbn [fst snd] in *.
    unfold backend_writes, front_messages in *. cbn [flat_map].
    rewrite flat_map_app, IH, Ha.
    destruct (ws self) as [w|]; [|contradiction Hws; reflexivity].
    destruct i as [m|d|d| |[m|]|d|uri c]; reflexivity.
Qed.

(** X13. The frames relayed are those of the connected session, each once
    and in the order it came.  What is written to the backend is what the
    front side sent after the backend connection was established, or all of
    it when the connection was there from the start; what is written to the
    front side is all the backend sent; and every write is flagged binary
    exactly when the message is [bytes]. *)
Theorem frames_are_relayed_in_order inputs : forall self,
  backend_writes (snd (WebSocketCallbacks.session inputs self))
  = front_messages (match ws self with
                    | Some _ => inputs
                    | None => after_connection inputs
                    end) /\
  front_writes (snd (WebSocketCallbacks.session inputs self)) = backend_messages inputs /\
  Forall (fun a => flagged_by_type a = true) (snd (WebSocketCallbacks.session inputs self)).
Proof.
  induction inputs as [|i inputs IH]; intros self; cbn [WebSocketCallbacks.session].
  - destruct (ws self); repeat split; constructor.
  - destruct (deliver_spec i self) as (Hw & Ha & _ & _).
    pose proof (session_connected inputs (fst (WebSocketCallbacks.deliver i self))) as Hc.
    destruct (WebSocketCallbacks.deliver i self) as [s1 actions]. cbn [fst snd] in *.
    destruct (IH s1) as (Hb & Hf & Hflag).
    destruct (WebSocketCallbacks.session inputs s1) as [s2 more]. cbn [fst snd] in *.
    split; [|split].
    + unfold backend_writes in *. rewrite flat_map_app.
      destruct (ws self) as [w|] eqn:Hws.
      * rewrite Hc by (rewrite Hw; destruct i as [m|d|d| |m|d|uri [[]|e]]; discriminate).
        rewrite Ha. unfold front_messages. cbn [flat_map].
        destruct i as [m|d|d| |[m|]|d|uri c]; reflexivity.
      * cbn [after_connection]. destruct (established i) eqn:He.
        -- rewrite Hc by (rewrite Hw; destruct i as [m|d|d| |m|d|uri [[]|e]];
                          discriminate).
           rewrite Ha. destruct i as [m|d|d| |[m|]|d|uri c]; reflexivity.
        -- rewrite Hb, Hw, Ha.
           destruct i as [m|d|d| |[m|]|d|uri [[]|e]]; try discriminate He;
             rewrite ?Hws; reflexivity.
    + unfold front_writes, backend_messages in *. cbn [flat_map].
      rewrite flat_map_app, Hf, Ha.
      destruct i as [m|d|d| |[m|]|d|uri c]; destruct (ws self); reflexivity.
    + apply Forall_app. split; [|exact Hflag]. rewrite Ha.
      destruct i as [m|d|d| |[m|]|d|uri c]; destruct (ws self);
        repeat constructor; cbn; apply Bool.eqb_reflx.
Qed.

(** X14. Every frame and every ping, from either side, records activity
    once, a connection attempt once when it starts and once more when it
    succeeds; a pong and the close of the front side record none. *)
Theorem websocket_traffic_is_activity inputs : forall self,
  activities (events (fst (WebSocketCallbacks.session inputs self)))
  = (activities (events self) + list_sum (map traffic inputs))%nat.
Proof.
  induction inputs as [|i inputs IH]; intros self; cbn [WebSocketCallbacks.session].
  - cbn. lia.
  - destruct (deliver_spec i self) as (_ & _ & Hact & _).
    destruct (WebSocketCallbacks.deliver i self) as [s1 actions]. cbn [fst snd] in *.
    specialize (IH s1).
    destruct (WebSocketCallbacks.session inputs s1) as [s2 more]. cbn [fst snd] in *.
    rewrite IH, Hact. cbn [map]. unfold list_sum. cbn [fold_right]. lia.
Qed.

(** ** The list of servers *)

(** X15. [ServersInfoHandler.get] gives one entry for each server process,
    in their order, and each entry holds the key ['name'] and no other: the
    name of the process, or ['Unknown'] for a process that has none. *)
Theorem servers_info_names_only (value : Type) (of_str : string -> value)
    (server_processes : list (gmap string value)) :
  Forall2
    (fun sp entry =>
       dom entry = ({[ "name" ]} : gset string) /\
       entry !! "name"
       = Some (match sp !! "name" with Some n => n | None => of_str "Unknown" end))
    server_processes
    (ServersInfoHandler.get value of_str server_processes).
Proof.
  induction server_processes as [|sp sps IH]; cbn; constructor; [|exact IH].
  split; [apply dom_singleton_L|apply lookup_singleton_eq].
Qed.

(** ** Sample runs *)

Lemma failed_start_forwards_nothing_witness :
  let self := initialize (state sample_handler) sample_handler in
  let self1 := fst (ensure_process attempt_start_fails self) in
  let e := OtherError "[Errno 2] No such file or directory: 'backend'" in
  ensure_process attempt_start_fails self = (self1, Raises e) /\
  SuperviseAndProxyHandler.proxy url_path_join attempt_start_fails 9000%N
    backend_not_found "foo" self = (self1, Raises e) /\
  SuperviseAndProxyHandler.open attempt_start_fails 9000%N "ws" self = (self1, Raises e) /\
  fetched (events self1) = fetched (events self) /\
  request self1 = request self.
Proof.
  intros self self1 e. split; [vm_compute; reflexivity|].
  apply (failed_start_forwards_nothing url_path_join attempt_start_fails 9000%N
           backend_not_found "foo" self self1 e).
  vm_compute; reflexivity.
Defined.

Lemma started_target_is_reached_on_its_port_witness :
  let self := initialize (state sample_handler) sample_handler in
  let self1 := fst (ensure_process attempt_ready self) in
  ensure_process attempt_ready self = (self1, Returns tt) /\
  exists s2,
    SuperviseAndProxyHandler.open attempt_ready 9000%N "ws" self
    = (s2, Returns "ws://127.0.0.1:9000/ws?x=1") /\
    allocated_port s2 = Some 9000%N.
Proof.
  intros self self1. split; [vm_compute; reflexivity|].
  exact (proj1 (started_target_is_reached_on_its_port url_path_join attempt_ready 9000%N
                  backend_not_found "ws" self self1 eq_refl)).
Defined.

(** The same target over HTTP: the path gets its slash and the port is the
    one bound at the first read. *)
Example supervised_proxy_sample :
  fetched (events (fst (SuperviseAndProxyHandler.proxy url_path_join attempt_ready 9000%N
                          backend_not_found "foo"
                          (initialize (state sample_handler) sample_handler))))
  = [mkHTTPRequest "http://localhost:9000/foo?x=1" "POST" (Some EmptyString)
       [("Host", ["hub.example"]); ("Upgrade", ["WebSocket"]);
        ("X-Forwarded-Context", ["/app/proxy/9000"]);
        ("X-Proxycontextpath", ["/app/proxy/9000"])]
       false].
Proof. vm_compute. reflexivity. Qed.

Lemma nothing_reaches_an_unconnected_backend_witness :
  (ws sample_handler = None /\
   Forall (fun i => established i = false) sample_unconnected_session) /\
  ws (fst (WebSocketCallbacks.session sample_unconnected_session sample_handler)) = None /\
  Forall (fun a => to_backend a = false)
    (snd (WebSocketCallbacks.session sample_unconnected_session sample_handler)).
Proof.
  assert (H : Forall (fun i => established i = false) sample_unconnected_session)
    by (repeat constructor).
  split; [split; [reflexivity|exact H]|].
  exact (nothing_reaches_an_unconnected_backend sample_unconnected_session sample_handler
           eq_refl H).
Defined.

(** A session that connects after its first frame: that frame is lost, the
    others go through in order, each way. *)
Example connected_session_sample :
  snd (WebSocketCallbacks.session sample_connected_session sample_handler)
  = [BackendWrite (TextMessage "hello") false;
     FrontWrite (BinaryMessage "data") true;
     BackendPing "1";
     FrontPing "2";
     BackendWrite (BinaryMessage "more") true;
     FrontClose;
     BackendClose] /\
  snd (WebSocketCallbacks.session sample_connected_session sample_connected_handler)
  = BackendWrite (TextMessage "lost") false ::
    snd (WebSocketCallbacks.session sample_connected_session sample_handler).
Proof. split; vm_compute; reflexivity. Qed.
